(** * safe-sweep: the deposit scanner and the retrying Safe executor

    A shallow embedding of [autoswitcher.py].  The two functions of the
    script, [execute_safe_transaction] and [monitor_and_transfer], are
    written in a small monad that threads the history of observable events
    (remote calls, log lines, sleeps) and carries Python exceptions.  The
    remote node [w3] is an oracle: every remote call is answered as a
    function of the history so far, which covers a real node as well as a
    scripted test double. *)

From Stdlib Require Import ZArith List String Ascii Bool Lia Sorted.
Import ListNotations.

Open Scope string_scope.
Open Scope list_scope.
Open Scope Z_scope.

(** ** Configuration (module-level constants of the script) *)

Definition YOUR_SAFE_ADDRESS : string := "0x3Ef50d6213F36eb88b994FA6C78277B328216d52".
Definition YOUR_TARGET_WALLET : string := "0xdD3BA483352ab5E74e4C52681Fd53DB4376e5c13".
Definition PRIVATE_KEY : string :=
  "871c75e6641a1c18097216964c38fcdf663db51480b46b5f63e5e1f980153a99".

(** A Python dict keeps insertion order, and [items()] is walked in that
    order by [next(...)]: an association list. *)
Definition TOKEN_ADDRESSES : list (string * string) :=
  [ ("USDT", "0xc2132D05D31c914a87C6611C10748AEb04B58e8F");
    ("USDC", "0x2791Bca1f2de4661ED88A30C99A7a9449Aa84174") ].

Definition MONITOR_INTERVAL : Z := 60.
Definition BLOCK_RANGE : Z := 100.
Definition RETRY_ATTEMPTS : Z := 5.

Definition ZERO_ADDRESS : string := "0x0000000000000000000000000000000000000000".

(** ** Data *)

(** Exceptions: every one of them is a subclass of [Exception], which is
    what both [except] clauses of the script catch. *)
Inductive exn : Type :=
| ValueError
| StopIteration
| Web3Error (msg : string).

Inductive result (A : Type) : Type :=
| Ok (a : A)
| Raise (e : exn).
Arguments Ok {A} a.
Arguments Raise {A} e.

(** A transaction as [get_block(..., full_transactions=True)] hands it over;
    only the three keys the script reads.  ['to'] is [None] for a contract
    creation.  ['input'] is the 0x-prefixed hexadecimal string the script
    takes it for ([startswith('0xa9059cbb')], [int(...[74:138], 16)]). *)
Record Tx : Type := mkTx {
  tx_to : option string;
  tx_value : Z;
  tx_input : string
}.

Record Block : Type := mkBlock { transactions : list Tx }.

Record Receipt : Type := mkReceipt {
  status : Z;
  transactionHash : string
}.

(** Positional arguments of a contract call ([tx_data], [args=...]). *)
Inductive arg : Type :=
| A_str (s : string)
| A_int (z : Z)
| A_bytes (b : string).

(** The dict given to [sign_transaction]. *)
Record TxDict : Type := mkTxDict {
  d_to : string;
  d_value : Z;
  d_gas : Z;
  d_gasPrice : Z;
  d_nonce : Z;
  d_data : string
}.

(** ** Observable events *)

Inductive level : Type := INFO | WARNING | ERROR.

Inductive message : Type :=
| Successful_transfer (tx_hash to_address : string)
| All_attempts_failed (to_address : string) (e : exn)
| Attempt_failed (attempt_plus_1 : Z) (e : exn)
| Scanning_new_blocks (latest_block : Z)
| MATIC_deposit_detected (value : Z) (target : string)
| ERC20_deposit_detected (value : Z) (token_symbol target : string)
| Monitoring_error (e : exn).

(** [Enter_execute_safe_transaction] is a ghost event: it marks an
    invocation of the executor with its three arguments and has no effect
    of its own.  All the others are effects the script performs. *)
Inductive event : Type :=
| Rpc_get_block_number
| Rpc_get_block (block_number : Z)
| Rpc_get_transaction_count (address : string)
| Rpc_estimateGas (tx_data : list arg) (from : string)
| Rpc_gas_price
| Rpc_send_raw_transaction (raw : string)
| Rpc_wait_for_transaction_receipt (tx_hash : string)
| Log (l : level) (m : message)
| Sleep (seconds : Z)
| Enter_execute_safe_transaction (to_address : string) (value : Z) (data : string).

Definition history : Type := list event.

(** ** The node

    [w3] of the script.  A remote call is answered from the history of
    events before it; [encodeABI], [sign_transaction] and the account
    address are local computations of the web3 library, which may raise
    as well. *)
Record Web3 : Type := mkWeb3 {
  account_address : string;  (* w3.eth.account.from_key(PRIVATE_KEY).address *)
  get_block_number : history -> result Z;
  get_block : history -> Z -> result Block;
  get_transaction_count : history -> string -> result Z;
  estimateGas : history -> list arg -> string -> result Z;
  gas_price : history -> result Z;
  encodeABI : string -> string -> list arg -> result string;
  sign_transaction : TxDict -> string -> result string;
  send_raw_transaction : history -> string -> result string;
  wait_for_transaction_receipt : history -> string -> result (option Receipt)
}.

(** ** The monad: read the history, append events, maybe raise *)

Definition M (A : Type) : Type := history -> result A * list event.

Definition ret {A} (a : A) : M A := fun _ => (Ok a, []).

Definition bind {A B} (m : M A) (f : A -> M B) : M B :=
  fun h =>
    match m h with
    | (Ok a, es) => let (r, es') := f a (h ++ es) in (r, es ++ es')
    | (Raise e, es) => (Raise e, es)
    end.

Notation "x <- m ;; k" := (bind m (fun x => k))
  (at level 61, m at next level, right associativity).
Notation "m ;;; k" := (bind m (fun _ => k))
  (at level 61, right associativity).

Definition emit (e : event) : M unit := fun _ => (Ok tt, [e]).

(** A remote call: the event is recorded whether the call raises or not. *)
Definition rpc {A} (e : event) (answer : history -> result A) : M A :=
  fun h => (answer h, [e]).

(** A local library call. *)
Definition local {A} (r : result A) : M A := fun _ => (r, []).

(** [try: m  except Exception as e: handler e]. *)
Definition try_except {A} (m : M A) (handler : exn -> M A) : M A :=
  fun h =>
    match m h with
    | (Ok a, es) => (Ok a, es)
    | (Raise e, es) => let (r, es') := handler e (h ++ es) in (r, es ++ es')
    end.

Fixpoint for_each {A} (body : A -> M unit) (l : list A) : M unit :=
  match l with
  | [] => ret tt
  | x :: l' => body x ;;; for_each body l'
  end.

(** Python's [range(lo, hi)]. *)
Definition range (lo hi : Z) : list Z :=
  map (fun i => lo + Z.of_nat i) (seq 0 (Z.to_nat (hi - lo))).

(** ** execute_safe_transaction *)

Section Executor.

Variable w3 : Web3.

(** The [try] block up to the receipt.  [w3.eth.contract(...)] and
    [from_key(PRIVATE_KEY).address] build local objects from constants and
    are taken not to raise; the dict literal given to [sign_transaction] is
    evaluated key by key, so the gas price is read before the call data is
    encoded. *)
Definition attempt_body (to_address : string) (value : Z) (data : string)
  : M (option Receipt) :=
  nonce <- rpc (Rpc_get_transaction_count (account_address w3))
               (fun h => get_transaction_count w3 h (account_address w3)) ;;
  let tx_data :=
    [A_str to_address; A_int value; A_bytes data; A_int 0; A_int 0; A_int 0;
     A_int 0; A_str ZERO_ADDRESS; A_str ZERO_ADDRESS; A_bytes ""] in
  gas_estimate <- rpc (Rpc_estimateGas tx_data (account_address w3))
                      (fun h => estimateGas w3 h tx_data (account_address w3)) ;;
  price <- rpc Rpc_gas_price (gas_price w3) ;;
  calldata <- local (encodeABI w3 YOUR_SAFE_ADDRESS "execTransaction" tx_data) ;;
  raw <- local (sign_transaction w3
                  (mkTxDict YOUR_SAFE_ADDRESS 0 gas_estimate price nonce calldata)
                  PRIVATE_KEY) ;;
  tx_hash <- rpc (Rpc_send_raw_transaction raw)
                 (fun h => send_raw_transaction w3 h raw) ;;
  rpc (Rpc_wait_for_transaction_receipt tx_hash)
      (fun h => wait_for_transaction_receipt w3 h tx_hash).

(** [receipt and receipt['status'] == 1] *)
Definition receipt_ok (receipt : option Receipt) : bool :=
  match receipt with
  | Some r => status r =? 1
  | None => false
  end.

(** One iteration of the [for attempt in range(RETRY_ATTEMPTS)] loop.
    [Some receipt] is the [return receipt] of the script; [None] means the
    iteration ended and the loop goes on. *)
Definition attempt_once (to_address : string) (value : Z) (data : string)
    (attempt : Z) : M (option Receipt) :=
  try_except
    (receipt <- attempt_body to_address value data ;;
     if receipt_ok receipt then
       match receipt with
       | Some r =>
           emit (Log INFO (Successful_transfer (transactionHash r) to_address)) ;;;
           ret (Some r)
       | None => ret None
       end
     else ret None)
    (fun e =>
       (if attempt =? RETRY_ATTEMPTS - 1
        then emit (Log ERROR (All_attempts_failed to_address e))
        else emit (Log WARNING (Attempt_failed (attempt + 1) e))) ;;;
       emit (Sleep 5) ;;;
       ret None).

Fixpoint attempts (to_address : string) (value : Z) (data : string)
    (rng : list Z) : M (option Receipt) :=
  match rng with
  | [] => ret None
  | attempt :: rng' =>
      r <- attempt_once to_address value data attempt ;;
      match r with
      | Some receipt => ret (Some receipt)
      | None => attempts to_address value data rng'
      end
  end.

Definition execute_safe_transaction (to_address : string) (value : Z)
    (data : string) : M (option Receipt) :=
  emit (Enter_execute_safe_transaction to_address value data) ;;;
  attempts to_address value data (range 0 RETRY_ATTEMPTS).

End Executor.

(** ** Strings as the scanner uses them *)

(** [str.lower()] on one character.  Addresses are ASCII; the letters
    'A'..'Z' (65..90) are moved by 32, every other byte is kept. *)
Definition lower_ascii (c : ascii) : ascii :=
  let n := nat_of_ascii c in
  if (Nat.leb 65 n && Nat.leb n 90)%bool then ascii_of_nat (n + 32) else c.

Fixpoint lower (s : string) : string :=
  match s with
  | EmptyString => EmptyString
  | String c s' => String (lower_ascii c) (lower s')
  end.

(** Truth value of [tx['to']]: [None] and the empty string are false. *)
Definition truthy (o : option string) : bool :=
  match o with
  | None => false
  | Some s => negb (s =? "")%string
  end.

(** [x in d.values()] *)
Definition in_values (x : string) (d : list (string * string)) : bool :=
  existsb (fun kv => (snd kv =? x)%string) d.

(** [next(symbol for symbol, addr in d.items() if addr.lower() == t.lower())];
    an exhausted generator raises StopIteration. *)
Definition next_symbol (d : list (string * string)) (t : string) : result string :=
  match find (fun kv => (lower (snd kv) =? lower t)%string) d with
  | Some kv => Ok (fst kv)
  | None => Raise StopIteration
  end.

(** Value of one hexadecimal digit, from its character code: '0'..'9' are
    48..57, 'a'..'f' are 97..102, 'A'..'F' are 65..70. *)
Definition hex_digit (c : ascii) : option Z :=
  let n := Z.of_nat (nat_of_ascii c) in
  if ((48 <=? n) && (n <=? 57))%bool then Some (n - 48)
  else if ((97 <=? n) && (n <=? 102))%bool then Some (n - 87)
  else if ((65 <=? n) && (n <=? 70))%bool then Some (n - 55)
  else None.

(** Python's [int(s, 16)] on a [str].  A character is a code point below
    256.  Blanks are stripped at both ends: tab, line feed, vertical tab,
    form feed, carriage return, space and, outside ASCII, U+0085 and
    U+00A0 (the separators 28..31 are not stripped by [int]).  Then come an
    optional sign, an optional [0x] or [0X] which may be followed by one
    underscore, and one or more hexadecimal digits in which single
    underscores may stand between two digits.  Anything else, the empty
    string included, raises ValueError. *)
Definition is_blank (c : ascii) : bool :=
  let n := nat_of_ascii c in
  ((Nat.leb 9 n && Nat.leb n 13) || Nat.eqb n 32 || Nat.eqb n 133
   || Nat.eqb n 160)%bool.

Fixpoint skip_blanks (s : string) : string :=
  match s with
  | String c s' => if is_blank c then skip_blanks s' else s
  | EmptyString => s
  end.

Fixpoint all_blank (s : string) : bool :=
  match s with
  | EmptyString => true
  | String c s' => (is_blank c && all_blank s')%bool
  end.

(** The digits after the first one; [after_underscore] tells that the
    character just read was an underscore.  The first character that is
    neither a digit nor an underscore must start the trailing blanks. *)
Fixpoint more_digits (acc : Z) (after_underscore : bool) (s : string)
  : result Z :=
  match s with
  | EmptyString => if after_underscore then Raise ValueError else Ok acc
  | String c s' =>
      if Ascii.eqb c "_" then
        if after_underscore then Raise ValueError
        else more_digits acc true s'
      else
        match hex_digit c with
        | Some d => more_digits (16 * acc + d) false s'
        | None =>
            if (negb after_underscore && all_blank s)%bool then Ok acc
            else Raise ValueError
        end
  end.

Definition digits (s : string) : result Z :=
  match s with
  | EmptyString => Raise ValueError
  | String c s' =>
      match hex_digit c with
      | Some d => more_digits d false s'
      | None => Raise ValueError
      end
  end.

Definition skip_prefix (s : string) : string :=
  match s with
  | String c0 (String c1 s') =>
      if (Ascii.eqb c0 "0" && (Ascii.eqb c1 "x" || Ascii.eqb c1 "X"))%bool
      then
        match s' with
        | String c2 s'' => if Ascii.eqb c2 "_" then s'' else s'
        | EmptyString => s'
        end
      else s
  | _ => s
  end.

Definition int16 (s : string) : result Z :=
  match skip_blanks s with
  | EmptyString => Raise ValueError
  | String c s' =>
      if Ascii.eqb c "-" then
        match digits (skip_prefix s') with
        | Ok v => Ok (- v)
        | Raise e => Raise e
        end
      else if Ascii.eqb c "+" then digits (skip_prefix s')
      else digits (skip_prefix (String c s'))
  end.

(** ** monitor_and_transfer *)

Section Monitor.

Variable w3 : Web3.

(** The body of [for tx in block.transactions]. *)
Definition process_tx (tx : Tx) : M unit :=
  if (truthy (tx_to tx) &&
      (lower (match tx_to tx with Some a => a | None => "" end)
       =? lower YOUR_SAFE_ADDRESS)%string)%bool
  then
    let to := match tx_to tx with Some a => a | None => "" end in
    if tx_value tx >? 0 then
      emit (Log INFO (MATIC_deposit_detected (tx_value tx) YOUR_TARGET_WALLET)) ;;;
      _ <- execute_safe_transaction w3 YOUR_TARGET_WALLET (tx_value tx) "" ;;
      ret tt
    else if (in_values to TOKEN_ADDRESSES &&
             String.prefix "0xa9059cbb" (tx_input tx))%bool
    then
      let token_address := to in
      token_symbol <- local (next_symbol TOKEN_ADDRESSES token_address) ;;
      value <- local (int16 (substring 74 64 (tx_input tx))) ;;
      emit (Log INFO (ERC20_deposit_detected value token_symbol YOUR_TARGET_WALLET)) ;;;
      transfer_data <- local (encodeABI w3 token_address "transfer"
                                [A_str YOUR_TARGET_WALLET; A_int value]) ;;
      _ <- execute_safe_transaction w3 token_address 0 transfer_data ;;
      ret tt
    else ret tt
  else ret tt.

(** The body of [for block_number in range(...)], under the value
    [last_logged_block] has while the range is walked. *)
Definition scan_block (last_logged_block : Z) (block_number : Z) : M unit :=
  if block_number <=? last_logged_block then ret tt
  else
    block <- rpc (Rpc_get_block block_number)
                 (fun h => get_block w3 h block_number) ;;
    for_each process_tx (transactions block).

(** [if latest_block > last_logged_block: ...]: the new value of
    [last_logged_block] and the log line. *)
Definition update_last_logged (last_logged_block latest_block : Z)
  : Z * list event :=
  if latest_block >? last_logged_block
  then (latest_block, [Log INFO (Scanning_new_blocks latest_block)])
  else (last_logged_block, []).

(** The part of the [try] block after the assignment to
    [last_logged_block], with the [except] clause of the cycle. *)
Definition scan_and_sleep (last_logged_block latest_block : Z) : M unit :=
  try_except
    (for_each (scan_block last_logged_block)
       (range (Z.max 0 (latest_block - BLOCK_RANGE)) (latest_block + 1)) ;;;
     emit (Sleep MONITOR_INTERVAL))
    (fun e =>
       emit (Log ERROR (Monitoring_error e)) ;;;
       emit (Sleep MONITOR_INTERVAL)).

(** One iteration of [while True].  [last_logged_block] is a local variable
    that outlives an exception: it is passed in and returned beside the
    events of the cycle.  No exception leaves the cycle. *)
Definition monitor_cycle (last_logged_block : Z) (h : history)
  : Z * list event :=
  match get_block_number w3 h with
  | Raise e =>
      (last_logged_block,
       [Rpc_get_block_number; Log ERROR (Monitoring_error e);
        Sleep MONITOR_INTERVAL])
  | Ok latest_block =>
      let (last', ev1) := update_last_logged last_logged_block latest_block in
      let ev01 := Rpc_get_block_number :: ev1 in
      (last', ev01 ++ snd (scan_and_sleep last' latest_block (h ++ ev01)))
  end.

(** The first [n] iterations of [while True], from a given value of
    [last_logged_block]. *)
Fixpoint cycles (n : nat) (last_logged_block : Z) (h : history)
  : Z * list event :=
  match n with
  | O => (last_logged_block, [])
  | S n' =>
      let (last', es) := monitor_cycle last_logged_block h in
      let (last'', es') := cycles n' last' (h ++ es) in
      (last'', es ++ es')
  end.

(** The script starts with [last_logged_block = 0] and an empty history. *)
Definition monitor_and_transfer (n : nat) : Z * list event := cycles n 0 [].

End Monitor.

(** ** Reading a trace *)

Definition is_enter (e : event) : bool :=
  match e with Enter_execute_safe_transaction _ _ _ => true | _ => false end.
Definition is_send (e : event) : bool :=
  match e with Rpc_send_raw_transaction _ => true | _ => false end.
Definition is_nonce (e : event) : bool :=
  match e with Rpc_get_transaction_count _ => true | _ => false end.
Definition is_sleep (e : event) : bool :=
  match e with Sleep _ => true | _ => false end.
Definition is_log (e : event) : bool :=
  match e with Log _ _ => true | _ => false end.

Definition count (p : event -> bool) (es : list event) : nat :=
  List.length (filter p es).

(** The relay calls of a trace, in order. *)
Definition relay_calls (es : list event) : list event := filter is_enter es.

(** The block numbers fetched in a trace, in order. *)
Fixpoint fetched (es : list event) : list Z :=
  match es with
  | [] => []
  | Rpc_get_block b :: es' => b :: fetched es'
  | _ :: es' => fetched es'
  end.

(** ** Vocabulary of the statements *)

(** The event logged by the [except] clause. *)
Definition failure_log (to_address : string) (attempt : Z) (e : exn) : event :=
  if attempt =? RETRY_ATTEMPTS - 1
  then Log ERROR (All_attempts_failed to_address e)
  else Log WARNING (Attempt_failed (attempt + 1) e).

(** Every step before the submission succeeds, at every history that
    extends [h0]. *)
Definition presubmission_succeeds (w3 : Web3) (h0 : history) : Prop :=
  (forall es a, exists n, get_transaction_count w3 (h0 ++ es) a = Ok n) /\
  (forall es td from, exists g, estimateGas w3 (h0 ++ es) td from = Ok g) /\
  (forall es, exists p, gas_price w3 (h0 ++ es) = Ok p) /\
  (forall c fn args, exists s, encodeABI w3 c fn args = Ok s) /\
  (forall d key, exists raw, sign_transaction w3 d key = Ok raw).

(** Counted from [h0], the node rejects a submission as long as fewer than
    [k] were made. *)
Definition first_submissions_fail (w3 : Web3) (h0 : history) (k : nat) : Prop :=
  forall es raw, (count is_send es < k)%nat ->
    exists e, send_raw_transaction w3 (h0 ++ es) raw = Raise e.

(** Counted from [h0], the submission that follows [k] earlier ones is
    accepted and its receipt is [r]. *)
Definition submission_succeeds (w3 : Web3) (h0 : history) (k : nat)
    (r : Receipt) : Prop :=
  forall es raw, count is_send es = k ->
    exists tx_hash,
      send_raw_transaction w3 (h0 ++ es) raw = Ok tx_hash /\
      wait_for_transaction_receipt w3
        (h0 ++ es ++ [Rpc_send_raw_transaction raw]) tx_hash = Ok (Some r).

(** A transaction is a native deposit when it is addressed to the Safe, in
    any letter case, and carries a positive value. *)
Definition native_deposit (tx : Tx) : Prop :=
  exists a, tx_to tx = Some a /\ lower a = lower YOUR_SAFE_ADDRESS /\ tx_value tx > 0.

(** An address is a registered token contract when it equals, letter case
    ignored, one of the addresses of TOKEN_ADDRESSES. *)
Definition registered_token (a : string) : Prop :=
  exists symbol addr, In (symbol, addr) TOKEN_ADDRESSES /\ lower addr = lower a.

(** Events of an idle cycle: the height request, log lines, sleeps. *)
Definition is_idle (e : event) : bool :=
  match e with
  | Rpc_get_block_number | Log _ _ | Sleep _ => true
  | _ => false
  end.

(** The positional arguments of the Safe's [execTransaction] ([tx_data] of
    the script) for a given destination, value and payload. *)
Definition safe_tx_data (to_address : string) (value : Z) (data : string)
  : list arg :=
  [A_str to_address; A_int value; A_bytes data; A_int 0; A_int 0; A_int 0;
   A_int 0; A_str ZERO_ADDRESS; A_str ZERO_ADDRESS; A_bytes ""].

(** What an event of one executor call may be, for operator account
    [acct] and arguments [to_address], [value], [data]. *)
Definition executor_event_ok (acct to_address : string) (value : Z)
    (data : string) (e : event) : Prop :=
  match e with
  | Rpc_get_transaction_count a => a = acct
  | Rpc_estimateGas td from =>
      td = safe_tx_data to_address value data /\ from = acct
  | Rpc_gas_price => True
  | Rpc_send_raw_transaction _ => True
  | Rpc_wait_for_transaction_receipt _ => True
  | Sleep s => s = 5
  | Log INFO m => exists tx_hash, m = Successful_transfer tx_hash to_address
  | Log WARNING m =>
      exists n e, m = Attempt_failed n e /\ 1 <= n <= RETRY_ATTEMPTS - 1
  | Log ERROR m => exists e, m = All_attempts_failed to_address e
  | Rpc_get_block_number => False
  | Rpc_get_block _ => False
  | Enter_execute_safe_transaction _ _ _ => False
  end.

(** The two log lines of the [except] clause of the executor. *)
Definition is_failure_log (e : event) : bool :=
  match e with
  | Log WARNING (Attempt_failed _ _) => true
  | Log ERROR (All_attempts_failed _ _) => true
  | _ => false
  end.

Definition is_log_or_sleep (e : event) : bool := (is_log e || is_sleep e)%bool.

Definition is_height_request (e : event) : bool :=
  match e with Rpc_get_block_number => true | _ => false end.

(** The heights announced by "Scanning new blocks up to ..." in a trace. *)
Fixpoint logged_heights (es : list event) : list Z :=
  match es with
  | [] => []
  | Log INFO (Scanning_new_blocks b) :: es' => b :: logged_heights es'
  | _ :: es' => logged_heights es'
  end.

(** The test of lines 75-76 as a boolean. *)
Definition native_depositb (tx : Tx) : bool :=
  (truthy (tx_to tx) &&
   (lower (match tx_to tx with Some a => a | None => "" end)
    =? lower YOUR_SAFE_ADDRESS)%string &&
   (tx_value tx >? 0))%bool.

(** The relay call a native deposit leads to. *)
Definition native_relay (tx : Tx) : event :=
  Enter_execute_safe_transaction YOUR_TARGET_WALLET (tx_value tx) "".

(** ** Test doubles *)

(** A node whose first [k] submissions are rejected; everything else
    succeeds and every receipt has status 1. *)
Definition scripted_node (k : nat) : Web3 := {|
  account_address := "0xOperator";
  get_block_number := fun _ => Ok 1;
  get_block := fun _ _ => Ok (mkBlock []);
  get_transaction_count := fun h _ => Ok (Z.of_nat (count is_send h));
  estimateGas := fun _ _ _ => Ok 21000;
  gas_price := fun _ => Ok 30;
  encodeABI := fun _ fn _ => Ok fn;
  sign_transaction := fun d _ => Ok (d_data d);
  send_raw_transaction := fun h _ =>
    if (count is_send h <? k)%nat then Raise (Web3Error "rejected")
    else Ok "0xhash";
  wait_for_transaction_receipt := fun _ tx_hash => Ok (Some (mkReceipt 1 tx_hash))
|}.

(** A node on which every call raises. *)
Definition failing_node : Web3 := {|
  account_address := "0xOperator";
  get_block_number := fun _ => Raise (Web3Error "timeout");
  get_block := fun _ _ => Raise (Web3Error "timeout");
  get_transaction_count := fun _ _ => Raise (Web3Error "timeout");
  estimateGas := fun _ _ _ => Raise (Web3Error "timeout");
  gas_price := fun _ => Raise (Web3Error "timeout");
  encodeABI := fun _ _ _ => Raise (Web3Error "abi");
  sign_transaction := fun _ _ => Raise (Web3Error "key");
  send_raw_transaction := fun _ _ => Raise (Web3Error "timeout");
  wait_for_transaction_receipt := fun _ _ => Raise (Web3Error "timeout")
|}.

(** A node on which every submitted Safe transaction is mined and reverts:
    no call raises, every receipt has status 0. *)
Definition reverting_node : Web3 := {|
  account_address := "0xOperator";
  get_block_number := fun _ => Ok 1;
  get_block := fun _ _ => Ok (mkBlock []);
  get_transaction_count := fun h _ => Ok (Z.of_nat (count is_send h));
  estimateGas := fun _ _ _ => Ok 21000;
  gas_price := fun _ => Ok 30;
  encodeABI := fun _ fn _ => Ok fn;
  sign_transaction := fun d _ => Ok (d_data d);
  send_raw_transaction := fun _ _ => Ok "0xhash";
  wait_for_transaction_receipt := fun _ tx_hash => Ok (Some (mkReceipt 0 tx_hash))
|}.

(** The end-to-end scenario: the chain is at height [height]; every block
    holds one transaction that sends 5 MATIC (5 * 10^18 wei) to the Safe;
    the Safe transaction goes through at the first attempt. *)
Definition deposit_tx : Tx :=
  mkTx (Some YOUR_SAFE_ADDRESS) 5000000000000000000 "0x".

Definition deposit_node (height : Z) : Web3 := {|
  account_address := "0xOperator";
  get_block_number := fun _ => Ok height;
  get_block := fun _ _ => Ok (mkBlock [deposit_tx]);
  get_transaction_count := fun h _ => Ok (Z.of_nat (count is_send h));
  estimateGas := fun _ _ _ => Ok 21000;
  gas_price := fun _ => Ok 30;
  encodeABI := fun _ fn _ => Ok fn;
  sign_transaction := fun d _ => Ok (d_data d);
  send_raw_transaction := fun _ _ => Ok "0xhash";
  wait_for_transaction_receipt := fun _ tx_hash => Ok (Some (mkReceipt 1 tx_hash))
|}.

(** A well-formed [transfer(address,uint256)] payload naming the Safe as
    recipient, amount 250000 (0x3d090), sent to the USDT contract. *)
Definition token_transfer_input : string :=
  "0xa9059cbb" ++
  "0000000000000000000000003ef50d6213f36eb88b994fa6c78277b328216d52" ++
  "000000000000000000000000000000000000000000000000000000000003d090".

Definition token_tx : Tx :=
  mkTx (Some "0xc2132D05D31c914a87C6611C10748AEb04B58e8F") 0 token_transfer_input.

(** * Properties *)

(** ** Traces *)

Lemma count_app (p : event -> bool) (a b : list event) :
  count p (a ++ b) = (count p a + count p b)%nat.
Proof. unfold count. now rewrite filter_app, length_app. Qed.

Lemma relay_calls_app (a b : list event) :
  relay_calls (a ++ b) = relay_calls a ++ relay_calls b.
Proof. apply filter_app. Qed.

Lemma fetched_app (a b : list event) : fetched (a ++ b) = fetched a ++ fetched b.
Proof.
  induction a as [|e a IH]; [reflexivity|].
  destruct e; cbn; now rewrite ?IH.
Qed.

Lemma range_length (lo hi : Z) : List.length (range lo hi) = Z.to_nat (hi - lo).
Proof. unfold range. now rewrite length_map, length_seq. Qed.

Lemma in_range (lo hi x : Z) : In x (range lo hi) <-> lo <= x < hi.
Proof.
  unfold range. rewrite in_map_iff. split.
  - intros (i & <- & Hi). apply in_seq in Hi. lia.
  - intros H. exists (Z.to_nat (x - lo)). split; [lia|].
    apply in_seq. lia.
Qed.

(** ** The executor *)

Section ExecutorFacts.

Variable w3 : Web3.
Variables (to_address : string) (value : Z) (data : string).

Let tx_data : list arg :=
  [A_str to_address; A_int value; A_bytes data; A_int 0; A_int 0; A_int 0;
   A_int 0; A_str ZERO_ADDRESS; A_str ZERO_ADDRESS; A_bytes ""].

Ltac split_answers :=
  repeat match goal with
         | |- context [match ?x with Ok _ => _ | Raise _ => _ end] =>
             destruct x; cbn
         end.

(** Whatever the node answers, one run of the [try] block asks for the
    nonce once, submits at most once, and neither logs, sleeps, fetches a
    block nor enters the executor again. *)
Lemma attempt_body_trace (h : history) :
  let es := snd (attempt_body w3 to_address value data h) in
  count is_nonce es = 1%nat /\ (count is_send es <= 1)%nat /\
  count is_sleep es = 0%nat /\ count is_log es = 0%nat /\
  relay_calls es = [] /\ fetched es = [].
Proof.
  unfold attempt_body, bind, rpc, local; cbn.
  split_answers; repeat split; auto.
Qed.

Lemma attempt_once_raise (attempt : Z) (h : history) (e : exn) (es : list event) :
  attempt_body w3 to_address value data h = (Raise e, es) ->
  attempt_once w3 to_address value data attempt h
  = (Ok None, es ++ [failure_log to_address attempt e; Sleep 5]).
Proof.
  intros H. unfold attempt_once, try_except, bind at 1. rewrite H.
  unfold failure_log, bind, emit, ret.
  destruct (attempt =? RETRY_ATTEMPTS - 1); reflexivity.
Qed.

Lemma attempt_once_bad_receipt (attempt : Z) (h : history)
    (receipt : option Receipt) (es : list event) :
  attempt_body w3 to_address value data h = (Ok receipt, es) ->
  receipt_ok receipt = false ->
  attempt_once w3 to_address value data attempt h = (Ok None, es).
Proof.
  intros H Hr. unfold attempt_once, try_except, bind at 1. rewrite H, Hr.
  unfold ret. now rewrite app_nil_r.
Qed.

Lemma attempt_once_success (attempt : Z) (h : history) (r : Receipt)
    (es : list event) :
  attempt_body w3 to_address value data h = (Ok (Some r), es) ->
  status r = 1 ->
  attempt_once w3 to_address value data attempt h
  = (Ok (Some r),
     es ++ [Log INFO (Successful_transfer (transactionHash r) to_address)]).
Proof.
  intros H Hs. unfold attempt_once, try_except, bind at 1. rewrite H.
  unfold receipt_ok. rewrite Hs. reflexivity.
Qed.

(** One iteration never raises, and its events are those of the [try]
    block followed by what the iteration itself logs and sleeps. *)
Lemma attempt_once_total (attempt : Z) (h : history) :
  exists r es',
    attempt_once w3 to_address value data attempt h
    = (Ok r, snd (attempt_body w3 to_address value data h) ++ es') /\
    Forall (fun e => (is_log e || is_sleep e)%bool = true) es'.
Proof.
  destruct (attempt_body w3 to_address value data h) as [[receipt|e] es] eqn:Hb.
  - destruct (receipt_ok receipt) eqn:Hr.
    + destruct receipt as [r|]; [|discriminate].
      apply Z.eqb_eq in Hr. cbn [snd].
      eexists _, _. split; [eapply attempt_once_success; eassumption|].
      repeat constructor.
    + exists None, []. cbn [snd]. rewrite app_nil_r. split; [|constructor].
      eapply attempt_once_bad_receipt; eassumption.
  - cbn [snd]. eexists _, _. split; [eapply attempt_once_raise; eassumption|].
    unfold failure_log.
    destruct (attempt =? RETRY_ATTEMPTS - 1); repeat constructor.
Qed.

Lemma log_sleep_no_relay (es : list event) :
  Forall (fun e => (is_log e || is_sleep e)%bool = true) es ->
  relay_calls es = [] /\ fetched es = [] /\
  count is_nonce es = 0%nat /\ count is_send es = 0%nat.
Proof.
  induction 1 as [|e es He _ IH]; [repeat split|].
  destruct IH as (IH1 & IH2 & IH3 & IH4).
  destruct e; try discriminate He; cbn; auto.
Qed.

(** The loop of the executor never raises, whatever the node does, and it
    neither enters the executor again nor fetches a block. *)
Lemma attempts_total (rng : list Z) (h : history) :
  exists r es,
    attempts w3 to_address value data rng h = (Ok r, es) /\
    relay_calls es = [] /\ fetched es = [].
Proof.
  revert h. induction rng as [|attempt rng IH]; intros h.
  - exists None, []. repeat split.
  - cbn [attempts]. unfold bind at 1.
    destruct (attempt_once_total attempt h) as (r & es' & Heq & Hall).
    rewrite Heq.
    destruct (attempt_body_trace h) as (_ & _ & _ & _ & Hrc & Hf).
    destruct (log_sleep_no_relay es' Hall) as (Hrc' & Hf' & _).
    destruct r as [receipt|].
    + eexists _, _. split; [reflexivity|].
      rewrite !relay_calls_app, !fetched_app, Hrc, Hf, Hrc', Hf'. now split.
    + match goal with |- context [attempts _ _ _ _ rng ?h'] =>
        destruct (IH h') as (r & es & Hrest & Hrc2 & Hf2) end.
      rewrite Hrest. exists r. eexists. split; [reflexivity|].
      rewrite !relay_calls_app, !fetched_app, Hrc, Hf, Hrc', Hf', Hrc2, Hf2.
      now split.
Qed.

(** If the [try] block raises at every history, the loop runs through the
    whole range: one nonce request and one sleep per element, result
    [None]. *)
Lemma attempts_all_raise (rng : list Z) (h : history) :
  (forall h', exists e, fst (attempt_body w3 to_address value data h') = Raise e) ->
  exists es,
    attempts w3 to_address value data rng h = (Ok None, es) /\
    count is_nonce es = List.length rng /\
    count is_sleep es = List.length rng.
Proof.
  intros Hraise. revert h. induction rng as [|attempt rng IH]; intros h.
  - exists []. repeat split.
  - destruct (Hraise h) as [e He].
    destruct (attempt_body w3 to_address value data h) as [r es] eqn:Hb.
    cbn in He. subst r.
    pose proof (attempt_body_trace h) as Ht. rewrite Hb in Ht. cbn [snd] in Ht.
    destruct Ht as (Hn & _ & Hs & _).
    cbn [attempts]. unfold bind at 1.
    rewrite (attempt_once_raise attempt h e es Hb).
    match goal with |- context [attempts _ _ _ _ rng ?h'] =>
      destruct (IH h') as (es2 & Hrest & Hn2 & Hs2) end.
    rewrite Hrest. eexists. split; [reflexivity|].
    rewrite !count_app, Hn, Hs, Hn2, Hs2.
    unfold failure_log. destruct (attempt =? RETRY_ATTEMPTS - 1); cbn; lia.
Qed.

(** *** A node that rejects the first submissions *)

Let E1 : event := Rpc_get_transaction_count (account_address w3).
Let E2 : event := Rpc_estimateGas tx_data (account_address w3).
Let E3 : event := Rpc_gas_price.

Ltac norm_history := repeat rewrite <- app_assoc; repeat rewrite app_nil_r; cbn [app].

Lemma attempt_body_rejected (h : history) (n g p : Z) (c raw : string) (e : exn) :
  get_transaction_count w3 h (account_address w3) = Ok n ->
  estimateGas w3 (h ++ [E1]) tx_data (account_address w3) = Ok g ->
  gas_price w3 (h ++ [E1; E2]) = Ok p ->
  encodeABI w3 YOUR_SAFE_ADDRESS "execTransaction" tx_data = Ok c ->
  sign_transaction w3 (mkTxDict YOUR_SAFE_ADDRESS 0 g p n c) PRIVATE_KEY = Ok raw ->
  send_raw_transaction w3 (h ++ [E1; E2; E3]) raw = Raise e ->
  attempt_body w3 to_address value data h
  = (Raise e, [E1; E2; E3; Rpc_send_raw_transaction raw]).
Proof.
  intros Hn Hg Hp Hc Hs Hsend.
  unfold attempt_body, bind, rpc, local. fold tx_data. fold E1 E2 E3.
  rewrite Hn. norm_history. rewrite Hg. norm_history. rewrite Hp, Hc, Hs.
  norm_history. rewrite Hsend. reflexivity.
Qed.

Lemma attempt_body_submitted (h : history) (n g p : Z) (c raw tx_hash : string) :
  get_transaction_count w3 h (account_address w3) = Ok n ->
  estimateGas w3 (h ++ [E1]) tx_data (account_address w3) = Ok g ->
  gas_price w3 (h ++ [E1; E2]) = Ok p ->
  encodeABI w3 YOUR_SAFE_ADDRESS "execTransaction" tx_data = Ok c ->
  sign_transaction w3 (mkTxDict YOUR_SAFE_ADDRESS 0 g p n c) PRIVATE_KEY = Ok raw ->
  send_raw_transaction w3 (h ++ [E1; E2; E3]) raw = Ok tx_hash ->
  attempt_body w3 to_address value data h
  = (wait_for_transaction_receipt w3
       (h ++ [E1; E2; E3; Rpc_send_raw_transaction raw]) tx_hash,
     [E1; E2; E3; Rpc_send_raw_transaction raw;
      Rpc_wait_for_transaction_receipt tx_hash]).
Proof.
  intros Hn Hg Hp Hc Hs Hsend.
  unfold attempt_body, bind, rpc, local. fold tx_data. fold E1 E2 E3.
  rewrite Hn. norm_history. rewrite Hg. norm_history. rewrite Hp, Hc, Hs.
  norm_history. rewrite Hsend. norm_history. reflexivity.
Qed.

Lemma presubmission_succeeds_extend (h0 es : history) :
  presubmission_succeeds w3 h0 -> presubmission_succeeds w3 (h0 ++ es).
Proof.
  intros (Hn & Hg & Hp & Hc & Hs). repeat split; auto; intros;
    rewrite <- app_assoc; auto.
Qed.

(** After [k] rejected submissions the loop reaches the accepted one,
    provided the range has more than [k] elements. *)
Lemma attempts_retry (k : nat) (r : Receipt) :
  status r = 1 ->
  forall (rng : list Z) (h0 : history),
    (k < List.length rng)%nat ->
    presubmission_succeeds w3 h0 ->
    first_submissions_fail w3 h0 k ->
    submission_succeeds w3 h0 k r ->
    exists es,
      attempts w3 to_address value data rng h0 = (Ok (Some r), es) /\
      count is_send es = S k /\ count is_nonce es = S k /\
      count is_sleep es = k.
Proof.
  intros Hstatus. induction k as [|k IH]; intros rng h0 Hlen Hpre Hfail Hsucc;
    (destruct rng as [|attempt rng]; [cbn in Hlen; lia|]);
    pose proof Hpre as (Hn & Hg & Hp & Hc & Hs);
    destruct (Hn [] (account_address w3)) as [n En]; rewrite app_nil_r in En;
    destruct (Hg [E1] tx_data (account_address w3)) as [g Eg];
    destruct (Hp [E1; E2]) as [p Ep];
    destruct (Hc YOUR_SAFE_ADDRESS "execTransaction" tx_data) as [c Ec];
    destruct (Hs (mkTxDict YOUR_SAFE_ADDRESS 0 g p n c) PRIVATE_KEY) as [raw Er].
  - destruct (Hsucc [E1; E2; E3] raw eq_refl) as (tx_hash & Esend & Ewait).
    pose proof (attempt_body_submitted h0 n g p c raw tx_hash En Eg Ep Ec Er Esend)
      as Hb.
    cbn [app] in Ewait. rewrite Ewait in Hb.
    cbn [attempts]. unfold bind at 1.
    rewrite (attempt_once_success attempt h0 r _ Hb Hstatus).
    eexists. split; [reflexivity|]. repeat split.
  - destruct (Hfail [E1; E2; E3] raw) as [e Ee]; [cbn; lia|].
    pose proof (attempt_body_rejected h0 n g p c raw e En Eg Ep Ec Er Ee) as Hb.
    cbn [attempts]. unfold bind at 1.
    rewrite (attempt_once_raise attempt h0 e _ Hb).
    set (es1 := [E1; E2; E3; Rpc_send_raw_transaction raw] ++
                [failure_log to_address attempt e; Sleep 5]).
    assert (Hc1 : count is_send es1 = 1%nat /\ count is_nonce es1 = 1%nat /\
                  count is_sleep es1 = 1%nat).
    { unfold es1, failure_log.
      destruct (attempt =? RETRY_ATTEMPTS - 1); repeat split. }
    destruct Hc1 as (Hc1 & Hc2 & Hc3).
    destruct (IH rng (h0 ++ es1)) as (es & Hrest & Hsend & Hnonce & Hsleep).
    + cbn in Hlen. lia.
    + now apply presubmission_succeeds_extend.
    + intros es' raw' Hlt. rewrite <- app_assoc. apply Hfail.
      rewrite count_app, Hc1. lia.
    + intros es' raw' Heq. rewrite <- !app_assoc.
      destruct (Hsucc (es1 ++ es') raw') as (tx_hash & H1 & H2).
      { rewrite count_app, Hc1. lia. }
      exists tx_hash. split; [exact H1|]. now rewrite <- app_assoc in H2.
    + rewrite Hrest. eexists. split; [reflexivity|].
      rewrite !count_app, Hc1, Hc2, Hc3, Hsend, Hnonce, Hsleep. repeat split; lia.
Qed.

End ExecutorFacts.

Lemma execute_safe_transaction_total (w3 : Web3) (to_address : string)
    (value : Z) (data : string) (h : history) :
  exists r es,
    execute_safe_transaction w3 to_address value data h
    = (Ok r, Enter_execute_safe_transaction to_address value data :: es) /\
    relay_calls es = [] /\ fetched es = [].
Proof.
  unfold execute_safe_transaction, bind, emit.
  match goal with |- context [attempts _ _ _ _ ?rng ?h'] =>
    destruct (attempts_total w3 to_address value data rng h')
      as (r & es & Heq & Hrc & Hf) end.
  rewrite Heq. now exists r, es.
Qed.

(** ** The classifier (body of the transaction loop) *)

(** An address that matches the Safe is not one of the registered token
    contracts: the token branch of [process_tx] sits under the Safe test
    and is never taken. *)
Lemma safe_not_token (a : string) :
  lower a = lower YOUR_SAFE_ADDRESS -> in_values a TOKEN_ADDRESSES = false.
Proof.
  intros H. unfold in_values, TOKEN_ADDRESSES. cbn [existsb snd].
  repeat match goal with
         | |- context [String.eqb ?s a] =>
             destruct (String.eqb_spec s a) as [<-|_];
             [vm_compute in H; discriminate|]
         end.
  reflexivity.
Qed.

Lemma safe_truthy (a : string) :
  lower a = lower YOUR_SAFE_ADDRESS -> truthy (Some a) = true.
Proof.
  intros H. destruct a; [vm_compute in H; discriminate | reflexivity].
Qed.

Lemma process_tx_native (w3 : Web3) (tx : Tx) (h : history) :
  native_deposit tx ->
  exists es,
    process_tx w3 tx h
    = (Ok tt,
       Log INFO (MATIC_deposit_detected (tx_value tx) YOUR_TARGET_WALLET)
       :: Enter_execute_safe_transaction YOUR_TARGET_WALLET (tx_value tx) ""
       :: es) /\
    relay_calls es = [] /\ fetched es = [].
Proof.
  intros (a & Hto & Hlow & Hval). unfold process_tx. rewrite Hto.
  rewrite (safe_truthy a Hlow), Hlow, String.eqb_refl. cbn [andb].
  replace (tx_value tx >? 0) with true by (symmetry; apply Z.gtb_lt; lia).
  unfold bind at 1. unfold emit at 1. unfold bind at 1.
  match goal with |- context [execute_safe_transaction w3 ?t ?v ?d ?h'] =>
    destruct (execute_safe_transaction_total w3 t v d h')
      as (r & es & Heq & Hrc & Hf) end.
  rewrite Heq. unfold ret. exists es. rewrite app_nil_r. now split.
Qed.

Lemma process_tx_not_native (w3 : Web3) (tx : Tx) (h : history) :
  ~ native_deposit tx -> process_tx w3 tx h = (Ok tt, []).
Proof.
  intros Hnot. unfold process_tx.
  destruct (tx_to tx) as [a|] eqn:Hto; [|reflexivity].
  destruct (String.eqb_spec (lower a) (lower YOUR_SAFE_ADDRESS)) as [Hlow|_];
    [|now rewrite andb_false_r].
  rewrite (safe_truthy a Hlow). cbn [andb].
  destruct (Z.gtb_spec (tx_value tx) 0) as [Hpos|_].
  - exfalso. apply Hnot. exists a. repeat split; auto; lia.
  - now rewrite (safe_not_token a Hlow).
Qed.

(** The decode of line 82 in isolation: the slice [74:138] of a payload
    that stops before character 74 is empty, and [int('', 16)] raises
    ValueError.  With the constants of the script the branch that holds the
    decode is never entered ([safe_not_token]), so the error cannot occur. *)
Remark decode_of_bare_selector_raises :
  int16 (substring 74 64 "0xa9059cbb") = Raise ValueError.
Proof. reflexivity. Qed.

(** Whatever the transaction, the body never fetches a block. *)
Lemma process_tx_fetches_nothing (w3 : Web3) (tx : Tx) (h : history) :
  fetched (snd (process_tx w3 tx h)) = [].
Proof.
  destruct (tx_to tx) as [a|] eqn:Hto.
  - destruct (String.eqb_spec (lower a) (lower YOUR_SAFE_ADDRESS)) as [Hlow|Hlow].
    + destruct (Z.gtb_spec (tx_value tx) 0) as [Hpos|Hneg].
      * destruct (process_tx_native w3 tx h) as (es & Heq & _ & Hf).
        { exists a. repeat split; auto; lia. }
        rewrite Heq. exact Hf.
      * rewrite process_tx_not_native; [reflexivity|].
        intros (a' & Hto' & _ & Hv). lia.
    + rewrite process_tx_not_native; [reflexivity|].
      intros (a' & Hto' & Hl & _). congruence.
  - rewrite process_tx_not_native; [reflexivity|].
    intros (a' & Hto' & _). congruence.
Qed.

(** ** The block scan *)

Section ScanFacts.

Variable w3 : Web3.

Lemma for_each_process_tx_fetches_nothing (txs : list Tx) (h : history) :
  fetched (snd (for_each (process_tx w3) txs h)) = [].
Proof.
  revert h. induction txs as [|tx txs IH]; intros h; [reflexivity|].
  cbn [for_each]. unfold bind.
  pose proof (process_tx_fetches_nothing w3 tx h) as Hf.
  destruct (process_tx w3 tx h) as [[u|e] es]; cbn [snd] in *; [|exact Hf].
  specialize (IH (h ++ es)).
  destruct (for_each (process_tx w3) txs (h ++ es)) as [r es'].
  cbn [snd] in *. now rewrite fetched_app, Hf, IH.
Qed.

(** The guard of the block loop: a block is fetched exactly when its number
    exceeds the value [last_logged_block] has during the walk. *)
Lemma scan_block_fetched (cursor b : Z) (h : history) :
  fetched (snd (scan_block w3 cursor b h)) = if b <=? cursor then [] else [b].
Proof.
  unfold scan_block. destruct (b <=? cursor); [reflexivity|].
  unfold bind, rpc. destruct (get_block w3 h b) as [blk|e]; [|reflexivity].
  pose proof (for_each_process_tx_fetches_nothing (transactions blk)
                (h ++ [Rpc_get_block b])) as Hf.
  destruct (for_each (process_tx w3) (transactions blk) (h ++ [Rpc_get_block b]))
    as [r es].
  cbn [snd] in *. rewrite fetched_app, Hf. reflexivity.
Qed.

Lemma scan_fetches_above (cursor : Z) (rng : list Z) (h : history) :
  Forall (fun b => cursor < b)
         (fetched (snd (for_each (scan_block w3 cursor) rng h))).
Proof.
  revert h. induction rng as [|b rng IH]; intros h; [constructor|].
  cbn [for_each]. unfold bind.
  pose proof (scan_block_fetched cursor b h) as Hf.
  destruct (scan_block w3 cursor b h) as [[u|e] es]; cbn [snd] in *.
  - specialize (IH (h ++ es)).
    destruct (for_each (scan_block w3 cursor) rng (h ++ es)) as [r es'].
    cbn [snd] in *. rewrite fetched_app, Hf. apply Forall_app. split; [|exact IH].
    destruct (Z.leb_spec b cursor); constructor; [lia | constructor].
  - rewrite Hf. destruct (Z.leb_spec b cursor); constructor; [lia | constructor].
Qed.

(** When no block number of the range exceeds [last_logged_block], the
    walk does nothing at all. *)
Lemma scan_skips_all (cursor : Z) (rng : list Z) (h : history) :
  (forall b, In b rng -> b <= cursor) ->
  for_each (scan_block w3 cursor) rng h = (Ok tt, []).
Proof.
  revert h. induction rng as [|b rng IH]; intros h Hall; [reflexivity|].
  cbn [for_each]. unfold bind, scan_block at 1.
  replace (b <=? cursor) with true
    by (symmetry; apply Z.leb_le, Hall; now left).
  unfold ret at 1. rewrite IH; [reflexivity|].
  intros b' Hb'. apply Hall. now right.
Qed.

Lemma update_last_logged_max (last latest : Z) :
  fst (update_last_logged last latest) = Z.max last latest.
Proof.
  unfold update_last_logged. destruct (Z.gtb_spec latest last); cbn [fst]; lia.
Qed.

(** The range of a cycle ends at [latest_block], and [last_logged_block] has
    already been raised to it: nothing in the range is above it. *)
Lemma cycle_range_below_cursor (last latest b : Z) :
  In b (range (Z.max 0 (latest - BLOCK_RANGE)) (latest + 1)) ->
  b <= fst (update_last_logged last latest).
Proof.
  rewrite in_range, update_last_logged_max. lia.
Qed.

(** What one cycle does, in full. *)
Lemma monitor_cycle_unfold (last : Z) (h : history) :
  monitor_cycle w3 last h =
  match get_block_number w3 h with
  | Raise e =>
      (last, [Rpc_get_block_number; Log ERROR (Monitoring_error e);
              Sleep MONITOR_INTERVAL])
  | Ok latest =>
      (Z.max last latest,
       Rpc_get_block_number :: snd (update_last_logged last latest)
       ++ [Sleep MONITOR_INTERVAL])
  end.
Proof.
  unfold monitor_cycle. destruct (get_block_number w3 h) as [latest|e]; [|reflexivity].
  pose proof (update_last_logged_max last latest) as Hmax.
  pose proof (cycle_range_below_cursor last latest) as Hrange.
  destruct (update_last_logged last latest) as [last' ev1]. cbn [fst snd] in *.
  subst last'. unfold scan_and_sleep, try_except, bind.
  rewrite scan_skips_all by exact Hrange.
  reflexivity.
Qed.

Lemma idle_no_fetch_no_relay (es : list event) :
  Forall (fun e => is_idle e = true) es ->
  fetched es = [] /\ relay_calls es = [].
Proof.
  induction 1 as [|e es He _ [IH1 IH2]]; [now split|].
  destruct e; try discriminate He; cbn; auto.
Qed.

Lemma monitor_cycle_idle (last : Z) (h : history) :
  Forall (fun e => is_idle e = true) (snd (monitor_cycle w3 last h)).
Proof.
  rewrite monitor_cycle_unfold.
  destruct (get_block_number w3 h) as [latest|e]; cbn [snd].
  - unfold update_last_logged. destruct (latest >? last); repeat constructor.
  - repeat constructor.
Qed.

Lemma monitor_cycle_monotone (last : Z) (h : history) :
  last <= fst (monitor_cycle w3 last h).
Proof.
  rewrite monitor_cycle_unfold.
  destruct (get_block_number w3 h); cbn [fst]; lia.
Qed.

Lemma cycles_idle (n : nat) (last : Z) (h : history) :
  Forall (fun e => is_idle e = true) (snd (cycles w3 n last h)).
Proof.
  revert last h. induction n as [|n IH]; intros last h; [constructor|].
  cbn [cycles].
  pose proof (monitor_cycle_idle last h) as H1.
  destruct (monitor_cycle w3 last h) as [last' es]. cbn [snd] in H1.
  specialize (IH last' (h ++ es)).
  destruct (cycles w3 n last' (h ++ es)) as [last'' es']. cbn [snd] in *.
  apply Forall_app. now split.
Qed.

Lemma cycles_monotone (n : nat) (last : Z) (h : history) :
  last <= fst (cycles w3 n last h).
Proof.
  revert last h. induction n as [|n IH]; intros last h; [cbn; lia|].
  cbn [cycles].
  pose proof (monitor_cycle_monotone last h) as H1.
  destruct (monitor_cycle w3 last h) as [last' es]. cbn [fst] in H1.
  specialize (IH last' (h ++ es)).
  destruct (cycles w3 n last' (h ++ es)) as [last'' es']. cbn [fst] in *. lia.
Qed.

Lemma cycles_S (n : nat) (last : Z) (h : history) :
  cycles w3 (S n) last h =
  let (last', es) := monitor_cycle w3 last h in
  let (last'', es') := cycles w3 n last' (h ++ es) in
  (last'', es ++ es').
Proof. reflexivity. Qed.

(** [n + 1] cycles are [n] cycles followed by one more. *)
Lemma cycles_snoc (n : nat) (last : Z) (h : history) :
  cycles w3 (S n) last h =
  let (last', es) := cycles w3 n last h in
  let (last'', es') := monitor_cycle w3 last' (h ++ es) in
  (last'', es ++ es').
Proof.
  revert last h. induction n as [|n IH]; intros last h.
  - cbn [cycles]. rewrite app_nil_r.
    destruct (monitor_cycle w3 last h) as [l es]. now rewrite app_nil_r.
  - rewrite (cycles_S (S n) last h), (cycles_S n last h).
    destruct (monitor_cycle w3 last h) as [l1 es1].
    rewrite (IH l1 (h ++ es1)).
    destruct (cycles w3 n l1 (h ++ es1)) as [l2 es2].
    rewrite <- app_assoc.
    destruct (monitor_cycle w3 l2 (h ++ es1 ++ es2)) as [l3 es3].
    now rewrite app_assoc.
Qed.

End ScanFacts.

(** * The claims *)

(** ** Retrying executor *)

(** C8.  Let [k] be smaller than RETRY_ATTEMPTS.  If, counted from the call,
    the node rejects the first [k] submissions and accepts the next one,
    whose receipt [r] has status 1 (the steps before a submission always
    succeeding), then [execute_safe_transaction] returns [r] and has made
    exactly [k + 1] submissions, in [k + 1] attempts, sleeping [k] times. *)
Theorem C8_retry_until_success (w3 : Web3) (to_address : string) (value : Z)
    (data : string) (h0 : history) (k : nat) (r : Receipt) :
  Z.of_nat k < RETRY_ATTEMPTS ->
  presubmission_succeeds w3 h0 ->
  first_submissions_fail w3 h0 k ->
  submission_succeeds w3 h0 k r ->
  status r = 1 ->
  exists es,
    execute_safe_transaction w3 to_address value data h0 = (Ok (Some r), es) /\
    count is_send es = S k /\
    count is_nonce es = S k /\
    count is_sleep es = k.
Proof.
  intros Hk Hpre Hfail Hsucc Hstatus.
  unfold execute_safe_transaction, bind, emit.
  set (enter := Enter_execute_safe_transaction to_address value data).
  destruct (attempts_retry w3 to_address value data k r Hstatus
              (range 0 RETRY_ATTEMPTS) (h0 ++ [enter]))
    as (es & Heq & Hsend & Hnonce & Hsleep).
  - rewrite range_length. unfold RETRY_ATTEMPTS in *. lia.
  - now apply presubmission_succeeds_extend.
  - intros es' raw Hlt. rewrite <- app_assoc. apply Hfail.
    rewrite count_app. cbn. exact Hlt.
  - intros es' raw Heq. rewrite <- !app_assoc.
    destruct (Hsucc ([enter] ++ es') raw) as (tx_hash & H1 & H2).
    { rewrite count_app. cbn. exact Heq. }
    exists tx_hash. split; [exact H1|]. now rewrite <- app_assoc in H2.
  - rewrite Heq. eexists. split; [reflexivity|].
    rewrite !count_app, Hsend, Hnonce, Hsleep. repeat split.
Qed.

Lemma scripted_node_presubmission (k : nat) (h0 : history) :
  presubmission_succeeds (scripted_node k) h0.
Proof. repeat split; intros; eexists; reflexivity. Qed.

Lemma scripted_node_rejects (k : nat) :
  first_submissions_fail (scripted_node k) [] k.
Proof.
  intros es raw Hlt. unfold scripted_node. cbn [send_raw_transaction app].
  apply Nat.ltb_lt in Hlt. rewrite Hlt. eauto.
Qed.

Lemma scripted_node_accepts (k : nat) :
  submission_succeeds (scripted_node k) [] k (mkReceipt 1 "0xhash").
Proof.
  intros es raw Heq. unfold scripted_node.
  cbn [send_raw_transaction wait_for_transaction_receipt app].
  rewrite Heq, Nat.ltb_irrefl. eauto.
Qed.

Lemma C8_retry_until_success_witness :
  Z.of_nat 2 < RETRY_ATTEMPTS /\
  exists es,
    execute_safe_transaction (scripted_node 2) YOUR_TARGET_WALLET 7 "" []
    = (Ok (Some (mkReceipt 1 "0xhash")), es) /\
    count is_send es = 3%nat /\
    count is_nonce es = 3%nat /\
    count is_sleep es = 2%nat.
Proof.
  split; [reflexivity|].
  apply (C8_retry_until_success (scripted_node 2) YOUR_TARGET_WALLET 7 "" [] 2
           (mkReceipt 1 "0xhash")).
  - reflexivity.
  - apply scripted_node_presubmission.
  - apply scripted_node_rejects.
  - apply scripted_node_accepts.
  - reflexivity.
Defined.

(** C9.  If the [try] block raises in every attempt, at whichever call of
    the node, [execute_safe_transaction] returns [None] without raising,
    after exactly RETRY_ATTEMPTS = 5 attempts: five nonce requests, one at
    the head of each attempt, and five sleeps. *)
Theorem C9_all_attempts_fail (w3 : Web3) (to_address : string) (value : Z)
    (data : string) (h : history) :
  (forall h', exists e,
      fst (attempt_body w3 to_address value data h') = Raise e) ->
  exists es,
    execute_safe_transaction w3 to_address value data h = (Ok None, es) /\
    count is_nonce es = Z.to_nat RETRY_ATTEMPTS /\
    count is_sleep es = Z.to_nat RETRY_ATTEMPTS /\
    Z.to_nat RETRY_ATTEMPTS = 5%nat.
Proof.
  intros Hraise. unfold execute_safe_transaction, bind, emit.
  match goal with |- context [attempts _ _ _ _ ?rng ?h'] =>
    destruct (attempts_all_raise w3 to_address value data rng h' Hraise)
      as (es & Heq & Hn & Hs) end.
  rewrite Heq. eexists. split; [reflexivity|].
  rewrite range_length in Hn, Hs.
  rewrite !count_app, Hn, Hs. repeat split.
Qed.

Lemma C9_all_attempts_fail_witness :
  exists es,
    execute_safe_transaction failing_node YOUR_TARGET_WALLET 7 "" []
    = (Ok None, es) /\
    count is_nonce es = Z.to_nat RETRY_ATTEMPTS /\
    count is_sleep es = Z.to_nat RETRY_ATTEMPTS /\
    Z.to_nat RETRY_ATTEMPTS = 5%nat.
Proof.
  apply (C9_all_attempts_fail failing_node YOUR_TARGET_WALLET 7 "" []).
  intros h'. exists (Web3Error "timeout"). reflexivity.
Defined.

(** C10, on the code.  On a node where every Safe transaction is mined and
    reverts (receipt with status 0, nothing raised), the executor makes its
    five submissions back to back: it never sleeps between them, logs
    nothing, not even the terminal failure, and returns [None].  The
    [except] clause is the only place that sleeps and logs. *)
Theorem C10_failed_receipt_no_sleep_no_log (h : history) :
  exists es,
    execute_safe_transaction reverting_node YOUR_TARGET_WALLET 7 "" h
    = (Ok None, es) /\
    count is_send es = 5%nat /\
    count is_sleep es = 0%nat /\
    count is_log es = 0%nat.
Proof. eexists. split; [reflexivity|]. repeat split. Qed.

(** ** Classification *)

(** C5.  A transaction addressed to the Safe, letter case ignored, with a
    positive value is classified as a native deposit exactly once: the
    MATIC deposit is logged, and the executor is entered once, for
    YOUR_TARGET_WALLET, with the value of the transaction and no data.  No
    exception is raised. *)
Theorem C5_native_deposit_classified (w3 : Web3) (tx : Tx) (h : history)
    (a : string) :
  tx_to tx = Some a ->
  lower a = lower YOUR_SAFE_ADDRESS ->
  tx_value tx > 0 ->
  exists es,
    process_tx w3 tx h
    = (Ok tt,
       Log INFO (MATIC_deposit_detected (tx_value tx) YOUR_TARGET_WALLET) :: es) /\
    relay_calls es
    = [Enter_execute_safe_transaction YOUR_TARGET_WALLET (tx_value tx) ""].
Proof.
  intros Hto Hlow Hval.
  destruct (process_tx_native w3 tx h) as (es & Heq & Hrc & _).
  { exists a. auto. }
  eexists. split; [exact Heq|].
  unfold relay_calls in *. cbn [filter is_enter]. now rewrite Hrc.
Qed.

Lemma C5_native_deposit_classified_witness :
  exists es,
    process_tx (deposit_node 1)
      (mkTx (Some "0x3ef50d6213f36eb88b994fa6c78277b328216d52")
            5000000000000000000 "0x") []
    = (Ok tt,
       Log INFO (MATIC_deposit_detected 5000000000000000000 YOUR_TARGET_WALLET)
       :: es) /\
    relay_calls es
    = [Enter_execute_safe_transaction YOUR_TARGET_WALLET 5000000000000000000 ""].
Proof.
  apply (C5_native_deposit_classified (deposit_node 1)
           (mkTx (Some "0x3ef50d6213f36eb88b994fa6c78277b328216d52")
                 5000000000000000000 "0x") []
           "0x3ef50d6213f36eb88b994fa6c78277b328216d52").
  - reflexivity.
  - reflexivity.
  - reflexivity.
Defined.

(** C2, on the code.  [token_tx] is sent to the registered USDT contract
    and its payload is a well-formed [transfer] call: selector, the Safe in
    the first slot, 250000 in the second.  The body of the transaction loop
    does nothing with it, on any node: no log line, no relay call.  The
    token branch sits under the test that the transaction is addressed to
    the Safe, and the Safe is not a registered token. *)
Theorem C2_token_transfer_not_classified (w3 : Web3) (h : history) :
  in_values "0xc2132D05D31c914a87C6611C10748AEb04B58e8F" TOKEN_ADDRESSES = true /\
  String.prefix "0xa9059cbb" (tx_input token_tx) = true /\
  String.length (tx_input token_tx) = 138%nat /\
  substring 34 40 (tx_input token_tx) = substring 2 40 (lower YOUR_SAFE_ADDRESS) /\
  int16 (substring 74 64 (tx_input token_tx)) = Ok 250000 /\
  process_tx w3 token_tx h = (Ok tt, []).
Proof. repeat split. Qed.

(** C6.  A transaction addressed to a registered token contract (letter
    case ignored) whose payload starts with the transfer selector and is
    shorter than the 138 characters of a well-formed call yields nothing,
    neither a relay call nor a log line, and raises nothing; the
    transactions after it in the block are processed as if it were not
    there. *)
Theorem C6_truncated_transfer_ignored (w3 : Web3) (tx : Tx) (rest : list Tx)
    (h : history) (a : string) :
  tx_to tx = Some a ->
  registered_token a ->
  String.prefix "0xa9059cbb" (tx_input tx) = true ->
  (String.length (tx_input tx) < 138)%nat ->
  process_tx w3 tx h = (Ok tt, []) /\
  for_each (process_tx w3) (tx :: rest) h = for_each (process_tx w3) rest h.
Proof.
  intros Hto (symbol & addr & Hin & Hlow) _ _.
  assert (Hnot : ~ native_deposit tx).
  { intros (a' & Hto' & Hsafe & _). rewrite Hto in Hto'. injection Hto' as <-.
    rewrite <- Hlow in Hsafe.
    destruct Hin as [Heq | [Heq | []]]; injection Heq as _ <-;
      vm_compute in Hsafe; discriminate Hsafe. }
  pose proof (process_tx_not_native w3 tx h Hnot) as Heq.
  split; [exact Heq|].
  cbn [for_each]. unfold bind. rewrite Heq, app_nil_r.
  now destruct (for_each (process_tx w3) rest h).
Qed.

Lemma C6_truncated_transfer_ignored_witness :
  process_tx failing_node
    (mkTx (Some "0xC2132D05D31C914A87C6611C10748AEB04B58E8F") 0 "0xa9059cbb0000")
    [] = (Ok tt, []) /\
  for_each (process_tx failing_node)
    [mkTx (Some "0xC2132D05D31C914A87C6611C10748AEB04B58E8F") 0 "0xa9059cbb0000";
     deposit_tx] []
  = for_each (process_tx failing_node) [deposit_tx] [].
Proof.
  apply (C6_truncated_transfer_ignored failing_node
           (mkTx (Some "0xC2132D05D31C914A87C6611C10748AEB04B58E8F") 0
                 "0xa9059cbb0000") [deposit_tx] []
           "0xC2132D05D31C914A87C6611C10748AEB04B58E8F").
  - reflexivity.
  - exists "USDT", "0xc2132D05D31c914a87C6611C10748AEb04B58e8F".
    split; [now left | reflexivity].
  - reflexivity.
  - cbn. lia.
Defined.

(** ** The scan loop *)

(** C4.  In every cycle whose height request is answered with [H], the
    value [last_logged_block] has during the walk, which is also the value
    the cycle leaves behind, is [max(last_logged_block, H)], at least [H];
    every block number of the range [max(0, H - BLOCK_RANGE) .. H] is at
    most that value, so the walk does nothing and the whole cycle is the
    height request, the log line if the height is new, and the sleep.
    This holds for the cycle that follows any [n] cycles.  Over any number
    of cycles, from any start, the loop only asks for the height, logs and
    sleeps: it fetches no block and never enters
    [execute_safe_transaction]. *)
Theorem C4_scan_loop_skips_every_block (w3 : Web3) (n : nat) (last : Z)
    (h : history) :
  (forall latest,
      get_block_number w3 h = Ok latest ->
      let last' := fst (monitor_cycle w3 last h) in
      let rng := range (Z.max 0 (latest - BLOCK_RANGE)) (latest + 1) in
      last' = fst (update_last_logged last latest) /\
      latest <= last' /\
      (forall b, In b rng -> b <= last') /\
      (forall h', for_each (scan_block w3 last') rng h' = (Ok tt, [])) /\
      (forall h', scan_and_sleep w3 last' latest h'
                  = (Ok tt, [Sleep MONITOR_INTERVAL])) /\
      snd (monitor_cycle w3 last h)
      = Rpc_get_block_number :: snd (update_last_logged last latest)
        ++ [Sleep MONITOR_INTERVAL]) /\
  (forall latest,
      get_block_number w3 (h ++ snd (cycles w3 n last h)) = Ok latest ->
      latest <= fst (cycles w3 (S n) last h)) /\
  (forall latest,
      let last' := fst (update_last_logged last latest) in
      let rng := range (Z.max 0 (latest - BLOCK_RANGE)) (latest + 1) in
      latest <= last' /\
      (forall b, In b rng -> b <= last') /\
      (forall h', for_each (scan_block w3 last') rng h' = (Ok tt, []))) /\
  let es := snd (cycles w3 n last h) in
  Forall (fun e => is_idle e = true) es /\
  fetched es = [] /\
  relay_calls es = [].
Proof.
  assert (Hiso : forall latest,
             let last' := fst (update_last_logged last latest) in
             let rng := range (Z.max 0 (latest - BLOCK_RANGE)) (latest + 1) in
             latest <= last' /\
             (forall b, In b rng -> b <= last') /\
             (forall h', for_each (scan_block w3 last') rng h' = (Ok tt, []))).
  { intros latest last' rng. repeat split.
    - unfold last'. rewrite update_last_logged_max. lia.
    - apply cycle_range_below_cursor.
    - intros h'. apply scan_skips_all. apply cycle_range_below_cursor. }
  split; [|split; [|split; [exact Hiso|]]].
  - intros latest Hlatest last' rng.
    assert (Hlast : last' = fst (update_last_logged last latest)).
    { unfold last'. rewrite monitor_cycle_unfold, Hlatest. cbn [fst].
      now rewrite update_last_logged_max. }
    destruct (Hiso latest) as (H1 & H2 & H3). rewrite <- Hlast in H1, H2, H3.
    repeat split; auto.
    + intros h'. unfold scan_and_sleep, try_except, bind. fold rng.
      now rewrite H3.
    + now rewrite monitor_cycle_unfold, Hlatest.
  - intros latest Hlatest. rewrite cycles_snoc.
    destruct (cycles w3 n last h) as [c es]. cbn [snd] in Hlatest.
    rewrite monitor_cycle_unfold, Hlatest. cbn [fst]. lia.
  - intros es. pose proof (cycles_idle w3 n last h) as Hidle.
    split; [exact Hidle|]. now apply idle_no_fetch_no_relay.
Qed.

(** C7.  A walk of a range fetches only blocks whose number is above the
    cursor it runs under; over the cycles the cursor never decreases; and
    in any run the fetched blocks are all above the cursor the run started
    from and none is fetched twice. *)
Theorem C7_cursor_monotone_no_rescan (w3 : Web3) (n : nat) (last : Z)
    (h : history) :
  (forall cursor rng h',
      Forall (fun b => cursor < b)
             (fetched (snd (for_each (scan_block w3 cursor) rng h')))) /\
  last <= fst (cycles w3 n last h) /\
  fst (cycles w3 n last h) <= fst (cycles w3 (S n) last h) /\
  Forall (fun b => last < b) (fetched (snd (cycles w3 n last h))) /\
  NoDup (fetched (snd (cycles w3 n last h))).
Proof.
  split; [intros; apply scan_fetches_above|].
  split; [apply cycles_monotone|].
  split.
  - rewrite cycles_snoc.
    destruct (cycles w3 n last h) as [last' es]. cbn [fst].
    pose proof (monitor_cycle_monotone w3 last' (h ++ es)) as Hm.
    now destruct (monitor_cycle w3 last' (h ++ es)).
  - destruct (idle_no_fetch_no_relay _ (cycles_idle w3 n last h)) as [Hf _].
    rewrite Hf. split; constructor.
Qed.

(** C1, on the code.  The chain is at height [height] and every block holds
    the 5 MATIC deposit to the Safe.  The classifier and the executor
    would relay it (first part), but the scan loop, run for any number of
    cycles, fetches no block and makes no relay call: with the chain at
    height 1, two cycles ask for the height, log it once and sleep. *)
Theorem C1_deposit_never_relayed (height : Z) (n : nat) :
  relay_calls (snd (process_tx (deposit_node height) deposit_tx []))
  = [Enter_execute_safe_transaction YOUR_TARGET_WALLET 5000000000000000000 ""] /\
  fetched (snd (monitor_and_transfer (deposit_node height) n)) = [] /\
  relay_calls (snd (monitor_and_transfer (deposit_node height) n)) = [] /\
  monitor_and_transfer (deposit_node 1) 2
  = (1, [Rpc_get_block_number; Log INFO (Scanning_new_blocks 1);
         Sleep MONITOR_INTERVAL; Rpc_get_block_number; Sleep MONITOR_INTERVAL]).
Proof.
  split; [reflexivity|].
  unfold monitor_and_transfer.
  destruct (idle_no_fetch_no_relay _ (cycles_idle (deposit_node height) n 0 []))
    as [Hf Hrc].
  repeat split; assumption || reflexivity.
Qed.

(** C3, on the code.  With [last_logged_block = 0] and the chain at height
    1, the cursor is raised to 1 by the assignment that precedes the walk;
    the walk of blocks 0 and 1 then runs under cursor 1 and skips both; at
    the end of the cycle nothing is assigned.  When the height does not
    exceed the cursor, the cycle leaves the cursor as it is. *)
Theorem C3_cursor_raised_before_walk (w3 : Web3) (h : history) :
  update_last_logged 0 1 = (1, [Log INFO (Scanning_new_blocks 1)]) /\
  range (Z.max 0 (1 - BLOCK_RANGE)) (1 + 1) = [0; 1] /\
  scan_block w3 1 0 h = (Ok tt, []) /\
  scan_block w3 1 1 h = (Ok tt, []) /\
  monitor_cycle (deposit_node 1) 0 []
  = (1, [Rpc_get_block_number; Log INFO (Scanning_new_blocks 1);
         Sleep MONITOR_INTERVAL]) /\
  monitor_cycle (deposit_node 1) 7 []
  = (7, [Rpc_get_block_number; Sleep MONITOR_INTERVAL]).
Proof. repeat split. Qed.

(** * Further properties of the executor *)

Section ExecutorMore.

Variable w3 : Web3.
Variables (to_address : string) (value : Z) (data : string).

Ltac split_answers_eq :=
  repeat match goal with
         | |- context [match ?x with Ok _ => _ | Raise _ => _ end] =>
             destruct x eqn:?; cbn
         end.

(** Events of the [try] block: remote calls only, with the arguments the
    script builds. *)
Lemma attempt_body_events_ok (h : history) :
  Forall (executor_event_ok (account_address w3) to_address value data)
         (snd (attempt_body w3 to_address value data h)).
Proof.
  unfold attempt_body, bind, rpc, local; cbn.
  split_answers_eq; repeat constructor.
Qed.

(** When the [try] block ends without raising, its last event is the wait
    for the receipt, and its result is what the node answered there. *)
Lemma attempt_body_ok_inv (h : history) (rc : option Receipt) (bes : list event) :
  attempt_body w3 to_address value data h = (Ok rc, bes) ->
  exists pre tx_hash,
    bes = pre ++ [Rpc_wait_for_transaction_receipt tx_hash] /\
    wait_for_transaction_receipt w3 (h ++ pre) tx_hash = Ok rc.
Proof.
  unfold attempt_body, bind, rpc, local; cbn.
  split_answers_eq; intros H; inversion H; subst; clear H.
  eexists [_; _; _; _], _. split; [reflexivity|].
  repeat rewrite <- app_assoc in *. repeat rewrite app_nil_r in *. cbn [app] in *.
  first [eassumption | reflexivity].
Qed.

Lemma attempt_once_cases (attempt : Z) (h : history) :
  let bes := snd (attempt_body w3 to_address value data h) in
  (exists e,
      attempt_body w3 to_address value data h = (Raise e, bes) /\
      attempt_once w3 to_address value data attempt h
      = (Ok None, bes ++ [failure_log to_address attempt e; Sleep 5])) \/
  (exists rc,
      attempt_body w3 to_address value data h = (Ok rc, bes) /\
      receipt_ok rc = false /\
      attempt_once w3 to_address value data attempt h = (Ok None, bes)) \/
  (exists r,
      attempt_body w3 to_address value data h = (Ok (Some r), bes) /\
      status r = 1 /\
      attempt_once w3 to_address value data attempt h
      = (Ok (Some r),
         bes ++ [Log INFO (Successful_transfer (transactionHash r) to_address)])).
Proof.
  destruct (attempt_body w3 to_address value data h) as [[rc|e] bes] eqn:Hb;
    cbn [snd].
  - destruct (receipt_ok rc) eqn:Hok.
    + destruct rc as [r|]; [|discriminate]. apply Z.eqb_eq in Hok.
      right; right. exists r. repeat split; auto.
      eapply attempt_once_success; eassumption.
    + right; left. exists rc. repeat split; auto.
      eapply attempt_once_bad_receipt; eassumption.
  - left. exists e. split; auto. eapply attempt_once_raise; eassumption.
Qed.

Lemma attempts_cons_none (attempt : Z) (rng : list Z) (h : history)
    (es1 : list event) :
  attempt_once w3 to_address value data attempt h = (Ok None, es1) ->
  attempts w3 to_address value data (attempt :: rng) h
  = (fst (attempts w3 to_address value data rng (h ++ es1)),
     es1 ++ snd (attempts w3 to_address value data rng (h ++ es1))).
Proof.
  intros H. cbn [attempts]. unfold bind at 1. rewrite H.
  now destruct (attempts w3 to_address value data rng (h ++ es1)).
Qed.

Lemma attempts_cons_some (attempt : Z) (rng : list Z) (h : history)
    (es1 : list event) (r : Receipt) :
  attempt_once w3 to_address value data attempt h = (Ok (Some r), es1) ->
  attempts w3 to_address value data (attempt :: rng) h = (Ok (Some r), es1).
Proof.
  intros H. cbn [attempts]. unfold bind at 1. rewrite H.
  unfold ret. now rewrite app_nil_r.
Qed.

Lemma count_failure_le_log (es : list event) :
  (count is_failure_log es <= count is_log es)%nat.
Proof.
  unfold count. induction es as [|e es IH]; [constructor|].
  destruct e as [| | | | | | |l m| |]; cbn; try exact IH.
  destruct l, m; cbn; lia.
Qed.

Lemma count_zero_filter (p : event -> bool) (es : list event) :
  count p es = 0%nat -> filter p es = [].
Proof. unfold count. destruct (filter p es); [reflexivity | discriminate]. Qed.

(** Counting over the loop: one nonce request per attempt made, at most one
    submission per attempt, one sleep per failure log, and [None] only
    when the range is used up. *)
Lemma attempts_counts (rng : list Z) (h : history) :
  exists r es,
    attempts w3 to_address value data rng h = (Ok r, es) /\
    (count is_nonce es <= List.length rng)%nat /\
    (rng <> [] -> (1 <= count is_nonce es)%nat) /\
    (count is_send es <= count is_nonce es)%nat /\
    count is_sleep es = count is_failure_log es /\
    (count is_sleep es <= count is_nonce es)%nat /\
    (r = None -> count is_nonce es = List.length rng).
Proof.
  revert h. induction rng as [|attempt rng IH]; intros h.
  - exists None, []. cbn. repeat split; auto. congruence.
  - destruct (attempt_body_trace w3 to_address value data h)
      as (Hn & Hs & Hsl & Hl & _).
    pose proof (count_failure_le_log
                  (snd (attempt_body w3 to_address value data h))) as Hfl.
    destruct (attempt_once_cases attempt h)
      as [(e & _ & Ho) | [(rc & _ & _ & Ho) | (r & _ & _ & Ho)]].
    + rewrite (attempts_cons_none _ _ _ _ Ho).
      match goal with |- context [attempts _ _ _ _ rng ?h'] =>
        destruct (IH h') as (r' & es' & Heq & B1 & B2 & B3 & B4 & B5 & B6) end.
      rewrite Heq. cbn [fst snd]. exists r'. eexists. split; [reflexivity|].
      rewrite !count_app, Hn, Hsl.
      assert (Hc : count is_nonce [failure_log to_address attempt e; Sleep 5] = 0%nat /\
                   count is_send [failure_log to_address attempt e; Sleep 5] = 0%nat /\
                   count is_sleep [failure_log to_address attempt e; Sleep 5] = 1%nat /\
                   count is_failure_log [failure_log to_address attempt e; Sleep 5]
                   = 1%nat).
      { unfold failure_log. destruct (attempt =? RETRY_ATTEMPTS - 1); repeat split. }
      destruct Hc as (C1 & C2 & C3 & C4). rewrite C1, C2, C3, C4.
      cbn [List.length]. repeat split; try lia. intros Hr. specialize (B6 Hr). lia.
    + rewrite (attempts_cons_none _ _ _ _ Ho).
      match goal with |- context [attempts _ _ _ _ rng ?h'] =>
        destruct (IH h') as (r' & es' & Heq & B1 & B2 & B3 & B4 & B5 & B6) end.
      rewrite Heq. cbn [fst snd]. exists r'. eexists. split; [reflexivity|].
      rewrite !count_app, Hn, Hsl.
      cbn [List.length]. repeat split; try lia. intros Hr. specialize (B6 Hr). lia.
    + rewrite (attempts_cons_some _ _ _ _ _ Ho).
      eexists _, _. split; [reflexivity|].
      rewrite !count_app, Hn, Hsl. cbn [List.length].
      change (count is_nonce [Log INFO (Successful_transfer (transactionHash r) to_address)])
        with 0%nat.
      change (count is_send [Log INFO (Successful_transfer (transactionHash r) to_address)])
        with 0%nat.
      change (count is_sleep [Log INFO (Successful_transfer (transactionHash r) to_address)])
        with 0%nat.
      change (count is_failure_log
                [Log INFO (Successful_transfer (transactionHash r) to_address)])
        with 0%nat.
      repeat split; try lia. discriminate.
Qed.

(** A returned receipt has status 1, it is what the node answered to the
    last wait, and the success line is the last event. *)
Lemma attempts_some_inv (rng : list Z) (h : history) (r : Receipt)
    (es : list event) :
  attempts w3 to_address value data rng h = (Ok (Some r), es) ->
  status r = 1 /\
  exists es0 tx_hash,
    es = es0 ++ [Rpc_wait_for_transaction_receipt tx_hash;
                 Log INFO (Successful_transfer (transactionHash r) to_address)] /\
    wait_for_transaction_receipt w3 (h ++ es0) tx_hash = Ok (Some r).
Proof.
  revert h es. induction rng as [|attempt rng IH]; intros h es H.
  - discriminate H.
  - destruct (attempt_once_cases attempt h)
      as [(e & _ & Ho) | [(rc & _ & _ & Ho) | (r' & Hb & Hst & Ho)]].
    + rewrite (attempts_cons_none _ _ _ _ Ho) in H.
      match type of H with context [attempts _ _ _ _ rng ?h'] =>
        destruct (attempts w3 to_address value data rng h') as [r2 es2] eqn:Heq end.
      cbn [fst snd] in H. inversion H; subst; clear H.
      destruct (IH _ _ Heq) as (Hs & es0 & tx_hash & -> & Hw).
      split; [exact Hs|].
      match goal with |- context [?es1 ++ es0 ++ _] =>
        exists (es1 ++ es0), tx_hash; split; [apply app_assoc|];
        rewrite (app_assoc h es1 es0); exact Hw end.
    + rewrite (attempts_cons_none _ _ _ _ Ho) in H.
      match type of H with context [attempts _ _ _ _ rng ?h'] =>
        destruct (attempts w3 to_address value data rng h') as [r2 es2] eqn:Heq end.
      cbn [fst snd] in H. inversion H; subst; clear H.
      destruct (IH _ _ Heq) as (Hs & es0 & tx_hash & -> & Hw).
      split; [exact Hs|].
      match goal with |- context [?es1 ++ es0 ++ _] =>
        exists (es1 ++ es0), tx_hash; split; [apply app_assoc|];
        rewrite (app_assoc h es1 es0); exact Hw end.
    + rewrite (attempts_cons_some _ _ _ _ _ Ho) in H.
      inversion H; subst; clear H. split; [exact Hst|].
      destruct (attempt_body_ok_inv _ _ _ Hb) as (pre & tx_hash & Hpre & Hw).
      exists pre, tx_hash. split; [|exact Hw].
      rewrite Hpre. now rewrite <- app_assoc.
Qed.

(** Every event of the loop is one the script builds from its arguments. *)
Lemma attempts_events_ok (rng : list Z) (h : history) :
  Forall (fun a => 0 <= a < RETRY_ATTEMPTS) rng ->
  Forall (executor_event_ok (account_address w3) to_address value data)
         (snd (attempts w3 to_address value data rng h)).
Proof.
  intros Hrng. revert h. induction Hrng as [|attempt rng Ha _ IH]; intros h.
  - constructor.
  - pose proof (attempt_body_events_ok h) as Hb.
    destruct (attempt_once_cases attempt h)
      as [(e & _ & Ho) | [(rc & _ & _ & Ho) | (r & _ & _ & Ho)]].
    + rewrite (attempts_cons_none _ _ _ _ Ho). cbn [snd].
      apply Forall_app. split; [|now apply IH].
      apply Forall_app. split; [exact Hb|].
      unfold failure_log. destruct (Z.eqb_spec attempt (RETRY_ATTEMPTS - 1)).
      * repeat constructor. now exists e.
      * repeat constructor. exists (attempt + 1), e. split; [reflexivity|lia].
    + rewrite (attempts_cons_none _ _ _ _ Ho). cbn [snd].
      apply Forall_app. split; [exact Hb | now apply IH].
    + rewrite (attempts_cons_some _ _ _ _ _ Ho). cbn [snd].
      apply Forall_app. split; [exact Hb|].
      constructor; [|constructor]. cbn. now eexists.
Qed.

(** When the [try] block raises at every history, the log lines and the
    sleeps of the loop are one failure log and one sleep per element of
    the range, in order. *)
Lemma attempts_all_raise_logs (rng : list Z) (h : history) :
  (forall h', exists e, fst (attempt_body w3 to_address value data h') = Raise e) ->
  exists excs,
    List.length excs = List.length rng /\
    filter is_log_or_sleep (snd (attempts w3 to_address value data rng h))
    = flat_map (fun ae => [failure_log to_address (fst ae) (snd ae); Sleep 5])
               (combine rng excs).
Proof.
  intros Hraise. revert h. induction rng as [|attempt rng IH]; intros h.
  - exists []. split; reflexivity.
  - destruct (Hraise h) as [e He].
    destruct (attempt_body w3 to_address value data h) as [rb bes] eqn:Hb.
    cbn [fst] in He. subst rb.
    pose proof (attempt_body_trace w3 to_address value data h) as Ht.
    rewrite Hb in Ht. cbn [snd] in Ht. destruct Ht as (_ & _ & Hsl & Hl & _).
    rewrite (attempts_cons_none _ _ _ _ (attempt_once_raise _ _ _ _ _ _ _ _ Hb)).
    cbn [snd].
    match goal with |- context [attempts _ _ _ _ rng ?h'] =>
      destruct (IH h') as (excs & Hlen & Heq) end.
    exists (e :: excs). split; [cbn; lia|].
    rewrite !filter_app, Heq. cbn [combine flat_map fst snd].
    assert (Hbes : filter is_log_or_sleep bes = []).
    { clear - Hsl Hl. unfold count in *. induction bes as [|x bes IHb]; [reflexivity|].
      unfold is_log_or_sleep in *. cbn in *.
      destruct (is_log x), (is_sleep x); cbn in *; try discriminate; auto. }
    rewrite Hbes. unfold failure_log.
    destruct (attempt =? RETRY_ATTEMPTS - 1); reflexivity.
Qed.

End ExecutorMore.

(** X1.  Whatever the node does, [execute_safe_transaction] raises nothing.
    It makes between one and RETRY_ATTEMPTS attempts (one nonce request
    each), at most one submission and at most one sleep per attempt, and it
    returns [None] only after all five attempts. *)
Theorem executor_never_raises_bounded (w3 : Web3) (to_address : string)
    (value : Z) (data : string) (h : history) :
  exists r es,
    execute_safe_transaction w3 to_address value data h = (Ok r, es) /\
    (1 <= count is_nonce es <= Z.to_nat RETRY_ATTEMPTS)%nat /\
    (count is_send es <= count is_nonce es)%nat /\
    (count is_sleep es <= count is_nonce es)%nat /\
    (r = None -> count is_nonce es = Z.to_nat RETRY_ATTEMPTS).
Proof.
  unfold execute_safe_transaction, bind, emit.
  match goal with |- context [attempts _ _ _ _ ?rng ?h'] =>
    destruct (attempts_counts w3 to_address value data rng h')
      as (r & es & Heq & B1 & B2 & B3 & B4 & B5 & B6) end.
  rewrite Heq. exists r. eexists. split; [reflexivity|].
  rewrite range_length in B1, B6.
  assert (B2' : (1 <= count is_nonce es)%nat) by (apply B2; discriminate).
  rewrite !count_app.
  change (count is_nonce [Enter_execute_safe_transaction to_address value data])
    with 0%nat.
  change (count is_send [Enter_execute_safe_transaction to_address value data])
    with 0%nat.
  change (count is_sleep [Enter_execute_safe_transaction to_address value data])
    with 0%nat.
  cbn [Nat.add]. replace (5 - 0) with 5 in * by reflexivity.
  repeat split; auto; lia.
Qed.

(** X2.  A receipt returned by [execute_safe_transaction] has status 1; it
    is the answer of the node to the last wait of the trace, and the trace
    ends with that wait followed by the "Successful transfer" line for the
    hash of the receipt. *)
Theorem executor_returns_only_success_receipt (w3 : Web3) (to_address : string)
    (value : Z) (data : string) (h : history) (r : Receipt) (es : list event) :
  execute_safe_transaction w3 to_address value data h = (Ok (Some r), es) ->
  status r = 1 /\
  exists es0 tx_hash,
    es = es0 ++ [Rpc_wait_for_transaction_receipt tx_hash;
                 Log INFO (Successful_transfer (transactionHash r) to_address)] /\
    wait_for_transaction_receipt w3 (h ++ es0) tx_hash = Ok (Some r).
Proof.
  unfold execute_safe_transaction, bind, emit. intros H.
  match type of H with context [attempts _ _ _ _ ?rng ?h'] =>
    destruct (attempts w3 to_address value data rng h') as [r2 es2] eqn:Heq end.
  inversion H; subst; clear H.
  destruct (attempts_some_inv _ _ _ _ _ _ _ _ Heq) as (Hs & es0 & tx_hash & -> & Hw).
  split; [exact Hs|].
  exists (Enter_execute_safe_transaction to_address value data :: es0), tx_hash.
  split; [reflexivity|].
  change (Enter_execute_safe_transaction to_address value data :: es0)
    with ([Enter_execute_safe_transaction to_address value data] ++ es0).
  rewrite (app_assoc h). exact Hw.
Qed.

Lemma executor_returns_only_success_receipt_witness :
  status (mkReceipt 1 "0xhash") = 1 /\
  exists es0 tx_hash,
    snd (execute_safe_transaction (scripted_node 1) YOUR_TARGET_WALLET 7 "" [])
    = es0 ++ [Rpc_wait_for_transaction_receipt tx_hash;
              Log INFO (Successful_transfer
                          (transactionHash (mkReceipt 1 "0xhash"))
                          YOUR_TARGET_WALLET)] /\
    wait_for_transaction_receipt (scripted_node 1) ([] ++ es0) tx_hash
    = Ok (Some (mkReceipt 1 "0xhash")).
Proof.
  apply (executor_returns_only_success_receipt (scripted_node 1)
           YOUR_TARGET_WALLET 7 "" [] (mkReceipt 1 "0xhash")).
  reflexivity.
Defined.

(** X3.  After the ghost entry event, every event of an executor call is
    one of: a nonce request for the operator account; a gas estimate for
    [execTransaction(to, value, data, 0, 0, 0, 0, 0x0, 0x0, b'')] from the
    operator account; a gas price request; a submission; a wait; a sleep of
    exactly 5 seconds; the success line for [to]; a warning numbered 1 to
    4; the terminal error line for [to].  It never asks for the height or
    a block, and there is one sleep per failure line. *)
Theorem executor_events_shape (w3 : Web3) (to_address : string) (value : Z)
    (data : string) (h : history) :
  exists r es,
    execute_safe_transaction w3 to_address value data h
    = (Ok r, Enter_execute_safe_transaction to_address value data :: es) /\
    Forall (executor_event_ok (account_address w3) to_address value data) es /\
    count is_sleep es = count is_failure_log es.
Proof.
  unfold execute_safe_transaction, bind, emit.
  match goal with |- context [attempts _ _ _ _ ?rng ?h'] =>
    pose proof (attempts_events_ok w3 to_address value data rng h') as Hok;
    destruct (attempts_counts w3 to_address value data rng h')
      as (r & es & Heq & _ & _ & _ & B4 & _) end.
  rewrite Heq in *. cbn [snd] in Hok. exists r, es.
  split; [reflexivity|]. split; [|exact B4].
  apply Hok. unfold RETRY_ATTEMPTS. repeat constructor; lia.
Qed.

(** X4.  When the [try] block raises in every attempt, the log lines and
    sleeps of the call are, in order: warnings "Attempt 1 failed" to
    "Attempt 4 failed", each followed by a sleep of 5 seconds, then the
    error "All attempts failed", again followed by a sleep of 5 seconds
    before [None] is returned. *)
Theorem executor_all_raise_log_sequence (w3 : Web3) (to_address : string)
    (value : Z) (data : string) (h : history) :
  (forall h', exists e,
      fst (attempt_body w3 to_address value data h') = Raise e) ->
  exists e1 e2 e3 e4 e5,
    filter is_log_or_sleep
      (snd (execute_safe_transaction w3 to_address value data h))
    = [Log WARNING (Attempt_failed 1 e1); Sleep 5;
       Log WARNING (Attempt_failed 2 e2); Sleep 5;
       Log WARNING (Attempt_failed 3 e3); Sleep 5;
       Log WARNING (Attempt_failed 4 e4); Sleep 5;
       Log ERROR (All_attempts_failed to_address e5); Sleep 5].
Proof.
  intros Hraise. unfold execute_safe_transaction, bind, emit.
  match goal with |- context [attempts _ _ _ _ ?rng ?h'] =>
    destruct (attempts_all_raise_logs w3 to_address value data rng h' Hraise)
      as (excs & Hlen & Hlogs);
    destruct (attempts w3 to_address value data rng h') as [r es] end.
  cbn [snd] in *. rewrite filter_app, Hlogs.
  change (range 0 RETRY_ATTEMPTS) with [0; 1; 2; 3; 4] in *.
  destruct excs as [|e1 [|e2 [|e3 [|e4 [|e5 [|e6 excs]]]]]]; try discriminate Hlen.
  exists e1, e2, e3, e4, e5. reflexivity.
Qed.

Lemma executor_all_raise_log_sequence_witness :
  exists e1 e2 e3 e4 e5,
    filter is_log_or_sleep
      (snd (execute_safe_transaction failing_node YOUR_TARGET_WALLET 7 "" []))
    = [Log WARNING (Attempt_failed 1 e1); Sleep 5;
       Log WARNING (Attempt_failed 2 e2); Sleep 5;
       Log WARNING (Attempt_failed 3 e3); Sleep 5;
       Log WARNING (Attempt_failed 4 e4); Sleep 5;
       Log ERROR (All_attempts_failed YOUR_TARGET_WALLET e5); Sleep 5].
Proof.
  apply (executor_all_raise_log_sequence failing_node YOUR_TARGET_WALLET 7 "" []).
  intros h'. exists (Web3Error "timeout"). reflexivity.
Defined.

(** * Further properties of the classifier *)

Lemma native_depositb_spec (tx : Tx) :
  native_depositb tx = true <-> native_deposit tx.
Proof.
  unfold native_depositb, native_deposit. split.
  - intros H. apply andb_prop in H as [H Hv]. apply andb_prop in H as [Ht Hl].
    destruct (tx_to tx) as [a|]; [|discriminate Ht].
    exists a. repeat split.
    + now apply String.eqb_eq.
    + apply Z.gtb_lt in Hv. lia.
  - intros (a & -> & Hl & Hv).
    rewrite (safe_truthy a Hl), Hl, String.eqb_refl. cbn [andb].
    apply Z.gtb_lt. lia.
Qed.

(** On a native deposit the body is the log line followed by the relay
    call, whatever the letter case of the recipient and the payload. *)
Lemma process_tx_native_eq (w3 : Web3) (tx : Tx) :
  native_deposit tx ->
  process_tx w3 tx =
  (emit (Log INFO (MATIC_deposit_detected (tx_value tx) YOUR_TARGET_WALLET)) ;;;
   _ <- execute_safe_transaction w3 YOUR_TARGET_WALLET (tx_value tx) "" ;;
   ret tt).
Proof.
  intros (a & Hto & Hlow & Hval). unfold process_tx. rewrite Hto.
  rewrite (safe_truthy a Hlow), Hlow, String.eqb_refl. cbn [andb].
  now replace (tx_value tx >? 0) with true by (symmetry; apply Z.gtb_lt; lia).
Qed.

(** The body never raises, and its relay calls are decided by the test of
    lines 75-76. *)
Lemma process_tx_relays (w3 : Web3) (tx : Tx) (h : history) :
  exists es,
    process_tx w3 tx h = (Ok tt, es) /\
    relay_calls es = (if native_depositb tx then [native_relay tx] else []).
Proof.
  destruct (native_depositb tx) eqn:Hb.
  - apply native_depositb_spec in Hb.
    destruct (process_tx_native w3 tx h Hb) as (es & Heq & Hrc & _).
    eexists. split; [exact Heq|].
    unfold relay_calls in *. cbn [filter is_enter]. now rewrite Hrc.
  - exists []. rewrite process_tx_not_native; [now split|].
    intros Hn. apply native_depositb_spec in Hn. congruence.
Qed.

Lemma for_each_process_tx_no_raise (w3 : Web3) (txs : list Tx) (h : history) :
  fst (for_each (process_tx w3) txs h) = Ok tt.
Proof.
  revert h. induction txs as [|tx txs IH]; intros h; [reflexivity|].
  cbn [for_each]. unfold bind.
  destruct (process_tx_relays w3 tx h) as (es1 & -> & _).
  specialize (IH (h ++ es1)).
  now destruct (for_each (process_tx w3) txs (h ++ es1)).
Qed.

(** X5.  For every transaction and every node the body of the transaction
    loop raises nothing and fetches no block.  It makes a relay call
    exactly when the transaction is addressed to the Safe (letter case
    ignored) with a positive value, and then exactly one, for
    YOUR_TARGET_WALLET with the value of the transaction and empty data;
    for every other transaction it has no effect at all, not even a log
    line. *)
Theorem process_tx_characterised (w3 : Web3) (tx : Tx) (h : history) :
  exists es,
    process_tx w3 tx h = (Ok tt, es) /\
    relay_calls es = (if native_depositb tx then [native_relay tx] else []) /\
    fetched es = [] /\
    (native_depositb tx = false -> es = []).
Proof.
  destruct (native_depositb tx) eqn:Hb.
  - apply native_depositb_spec in Hb.
    destruct (process_tx_native w3 tx h Hb) as (es & Heq & Hrc & Hf).
    eexists. split; [exact Heq|]. repeat split.
    + unfold relay_calls in *. cbn [filter is_enter]. now rewrite Hrc.
    + cbn [fetched]. exact Hf.
    + discriminate.
  - exists []. rewrite process_tx_not_native; [repeat split|].
    intros Hn. apply native_depositb_spec in Hn. congruence.
Qed.

(** X6.  Over the transactions of a block, in order: nothing is raised,
    whatever the outcome of each relay, and the relay calls are exactly one
    per native deposit of the block, in block order, each carrying the
    value of its transaction. *)
Theorem block_relays_each_native_deposit (w3 : Web3) (txs : list Tx)
    (h : history) :
  exists es,
    for_each (process_tx w3) txs h = (Ok tt, es) /\
    relay_calls es = map native_relay (filter native_depositb txs).
Proof.
  revert h. induction txs as [|tx txs IH]; intros h.
  - exists []. split; reflexivity.
  - cbn [for_each]. unfold bind.
    destruct (process_tx_relays w3 tx h) as (es1 & Heq1 & Hrc1).
    rewrite Heq1. destruct (IH (h ++ es1)) as (es2 & Heq2 & Hrc2).
    rewrite Heq2. exists (es1 ++ es2). split; [reflexivity|].
    rewrite relay_calls_app, Hrc1, Hrc2. cbn [filter].
    now destruct (native_depositb tx).
Qed.

(** X7.  The outcome of the body depends on a transaction only through the
    lower-cased recipient and the value: two transactions whose recipients
    differ in letter case only and whose values agree are treated alike on
    every node, whatever their payloads. *)
Theorem process_tx_ignores_case_and_payload (w3 : Web3) (tx1 tx2 : Tx)
    (h : history) :
  option_map lower (tx_to tx1) = option_map lower (tx_to tx2) ->
  tx_value tx1 = tx_value tx2 ->
  process_tx w3 tx1 h = process_tx w3 tx2 h.
Proof.
  intros Hto Hval.
  assert (Hiff : native_deposit tx1 <-> native_deposit tx2).
  { unfold native_deposit. rewrite Hval.
    destruct (tx_to tx1) as [a1|], (tx_to tx2) as [a2|]; try discriminate Hto.
    - injection Hto as Hl.
      split; intros (a & Ha & Hlow & Hv); injection Ha as <-;
        eexists; (split; [reflexivity|]); split; auto; congruence.
    - split; intros (a & Ha & _); discriminate Ha. }
  destruct (native_depositb tx1) eqn:Hb.
  - apply native_depositb_spec in Hb.
    rewrite (process_tx_native_eq w3 tx1 Hb).
    rewrite (process_tx_native_eq w3 tx2 (proj1 Hiff Hb)).
    now rewrite Hval.
  - assert (Hn1 : ~ native_deposit tx1).
    { intros Hn. apply native_depositb_spec in Hn. congruence. }
    rewrite (process_tx_not_native w3 tx1 h Hn1).
    rewrite (process_tx_not_native w3 tx2 h); [reflexivity|].
    intros Hn. apply Hn1, Hiff, Hn.
Qed.

Lemma process_tx_ignores_case_and_payload_witness :
  process_tx (deposit_node 1)
    (mkTx (Some "0x3EF50D6213F36EB88B994FA6C78277B328216D52") 9 "0xa9059cbb") []
  = process_tx (deposit_node 1)
      (mkTx (Some "0x3ef50d6213f36eb88b994fa6c78277b328216d52") 9 "0x") [].
Proof.
  apply (process_tx_ignores_case_and_payload (deposit_node 1)
           (mkTx (Some "0x3EF50D6213F36EB88B994FA6C78277B328216D52") 9 "0xa9059cbb")
           (mkTx (Some "0x3ef50d6213f36eb88b994fa6c78277b328216d52") 9 "0x") []).
  - reflexivity.
  - reflexivity.
Defined.

(** X8.  The lookup of line 81 cannot raise StopIteration after the
    membership test of line 79, in any registry: an address that is one of
    the values is found, and the symbol returned belongs to an entry whose
    address equals it up to letter case. *)
Theorem next_symbol_found (d : list (string * string)) (t : string) :
  in_values t d = true ->
  exists symbol addr,
    next_symbol d t = Ok symbol /\
    In (symbol, addr) d /\
    lower addr = lower t.
Proof.
  unfold in_values, next_symbol. intros H.
  apply existsb_exists in H as ((s0 & a0) & Hin & Heq).
  cbn [snd] in Heq. apply String.eqb_eq in Heq. subst a0.
  destruct (find (fun kv => (lower (snd kv) =? lower t)%string) d)
    as [[s1 a1]|] eqn:Hfind.
  - apply find_some in Hfind as [Hin1 Hl]. cbn [snd] in Hl.
    apply String.eqb_eq in Hl. exists s1, a1. now repeat split.
  - exfalso. pose proof (find_none _ _ Hfind _ Hin) as Hn. cbn [snd] in Hn.
    now rewrite String.eqb_refl in Hn.
Qed.

Lemma next_symbol_found_witness :
  exists symbol addr,
    next_symbol TOKEN_ADDRESSES "0x2791Bca1f2de4661ED88A30C99A7a9449Aa84174"
    = Ok symbol /\
    In (symbol, addr) TOKEN_ADDRESSES /\
    lower addr = lower "0x2791Bca1f2de4661ED88A30C99A7a9449Aa84174".
Proof.
  apply (next_symbol_found TOKEN_ADDRESSES
           "0x2791Bca1f2de4661ED88A30C99A7a9449Aa84174").
  reflexivity.
Defined.

(** * The amount decode of line 82 *)

Lemma hex_digit_bound (c : ascii) (d : Z) :
  hex_digit c = Some d -> 0 <= d < 16.
Proof.
  unfold hex_digit.
  repeat match goal with
         | |- context [if ?b then _ else _] => destruct b eqn:?
         end; intros H; inversion H; subst; clear H;
    repeat match goal with
           | Hb : (_ && _)%bool = true |- _ => apply andb_prop in Hb as [? ?]
           end; lia.
Qed.

Lemma pow16_pos (n : nat) : 0 < 16 ^ Z.of_nat n.
Proof. apply Z.pow_pos_nonneg; lia. Qed.

Lemma pow16_succ (n : nat) : 16 ^ Z.of_nat (S n) = 16 * 16 ^ Z.of_nat n.
Proof. rewrite Nat2Z.inj_succ. apply Z.pow_succ_r. lia. Qed.

(** The digits read after an accumulator [acc] can only append to it. *)
Lemma more_digits_bound (s : string) (acc : Z) (after_underscore : bool) (v : Z) :
  0 <= acc ->
  more_digits acc after_underscore s = Ok v ->
  acc <= v < (acc + 1) * 16 ^ Z.of_nat (String.length s).
Proof.
  revert acc after_underscore.
  induction s as [|c s IH]; intros acc au Hacc H.
  - cbn in H. destruct au; inversion H; subst. cbn. lia.
  - cbn [more_digits] in H. cbn [String.length]. rewrite pow16_succ.
    pose proof (pow16_pos (String.length s)) as Hp.
    set (p := 16 ^ Z.of_nat (String.length s)) in *.
    destruct (Ascii.eqb c "_").
    + destruct au; [discriminate H|]. apply IH in H; [|lia]. fold p in H. nia.
    + destruct (hex_digit c) as [d|] eqn:Hd.
      * apply hex_digit_bound in Hd. apply IH in H; [|lia]. fold p in H. nia.
      * destruct (negb au && all_blank (String c s))%bool; inversion H; subst. nia.
Qed.

Lemma digits_bound (s : string) (v : Z) :
  digits s = Ok v -> 0 <= v < 16 ^ Z.of_nat (String.length s).
Proof.
  destruct s as [|c s]; [discriminate|]. cbn [digits].
  destruct (hex_digit c) as [d|] eqn:Hd; [|discriminate].
  intros H. apply hex_digit_bound in Hd. apply more_digits_bound in H; [|lia].
  cbn [String.length]. rewrite pow16_succ.
  pose proof (pow16_pos (String.length s)). nia.
Qed.

Lemma skip_prefix_length (s : string) :
  (String.length (skip_prefix s) <= String.length s)%nat.
Proof.
  destruct s as [|c0 [|c1 s]]; cbn; try lia.
  destruct (Ascii.eqb c0 "0" && (Ascii.eqb c1 "x" || Ascii.eqb c1 "X"))%bool;
    cbn; try lia.
  destruct s as [|c2 s]; cbn; try lia.
  destruct (Ascii.eqb c2 "_"); cbn; lia.
Qed.

Lemma skip_blanks_length (s : string) :
  (String.length (skip_blanks s) <= String.length s)%nat.
Proof.
  induction s as [|c s IH]; cbn; [lia|].
  destruct (is_blank c); cbn; lia.
Qed.

Lemma pow16_mono (n m : nat) : (n <= m)%nat -> 16 ^ Z.of_nat n <= 16 ^ Z.of_nat m.
Proof. intros H. apply Z.pow_le_mono_r; lia. Qed.

(** The value of [int(s, 16)] against the length of [s]: a negative value
    needs a minus sign, which takes one character. *)
Lemma int16_bound (s : string) (v : Z) :
  int16 s = Ok v ->
  - 16 ^ Z.of_nat (Nat.pred (String.length s)) < v
  < 16 ^ Z.of_nat (String.length s) /\
  (v < 0 -> exists rest, skip_blanks s = String "-" rest).
Proof.
  unfold int16. pose proof (skip_blanks_length s) as Hlen.
  destruct (skip_blanks s) as [|c s1]; [discriminate|]. cbn [String.length] in Hlen.
  pose proof (pow16_pos (Nat.pred (String.length s))) as Hpp.
  destruct (Ascii.eqb_spec c "-") as [->|Hc].
  - destruct (digits (skip_prefix s1)) as [r|e] eqn:Hd; [|discriminate].
    intros H; inversion H; subst; clear H.
    apply digits_bound in Hd. pose proof (skip_prefix_length s1) as Hl.
    pose proof (pow16_mono (String.length (skip_prefix s1))
                  (Nat.pred (String.length s)) ltac:(lia)) as Hm.
    pose proof (pow16_pos (String.length s)).
    split; [lia | intros _; now eexists].
  - assert (Hnonneg : forall t, (String.length t <= String.length s)%nat ->
                                digits t = Ok v ->
                                - 16 ^ Z.of_nat (Nat.pred (String.length s)) < v
                                < 16 ^ Z.of_nat (String.length s) /\
                                (v < 0 -> exists rest, String c s1 = String "-" rest)).
    { intros t Ht Hd. apply digits_bound in Hd.
      pose proof (pow16_mono _ _ Ht). split; lia. }
    destruct (Ascii.eqb c "+"); intros H; eapply Hnonneg; try exact H.
    + pose proof (skip_prefix_length s1). lia.
    + pose proof (skip_prefix_length (String c s1)). cbn [String.length] in *. lia.
Qed.

Lemma substring_length_le (n m : nat) (s : string) :
  (String.length (substring n m s) <= m)%nat.
Proof.
  revert n m. induction s as [|c s IH]; intros [|n] [|m]; cbn; try lia.
  - specialize (IH 0%nat m). lia.
  - apply IH.
  - apply IH.
Qed.

Lemma substring_beyond (n m : nat) (s : string) :
  (String.length s <= n)%nat -> substring n m s = EmptyString.
Proof.
  revert n m. induction s as [|c s IH]; intros [|n] [|m] H; cbn in *;
    try reflexivity; try lia; apply IH; lia.
Qed.

Lemma substring_skip (p r : string) (m : nat) :
  substring (String.length p) m (p ++ r)%string = substring 0 m r.
Proof. induction p as [|c p IH]; [reflexivity | exact IH]. Qed.

Lemma substring_take (s t : string) :
  substring 0 (String.length s) (s ++ t)%string = s.
Proof.
  induction s as [|c s IH]; cbn.
  - now destruct t.
  - now rewrite IH.
Qed.

(** X9.  Whenever the decode of line 82 yields an amount [v], the amount
    lies strictly between [- 2^252] and [2^256], since at most 64
    characters are read; and it is negative only when the slice, after its
    leading blanks, starts with a minus sign. *)
Theorem decoded_amount_bounds (input : string) (v : Z) :
  int16 (substring 74 64 input) = Ok v ->
  - 2 ^ 252 < v < 2 ^ 256 /\
  (v < 0 ->
   exists rest, skip_blanks (substring 74 64 input) = String "-" rest).
Proof.
  intros H. pose proof (substring_length_le 74 64 input) as Hlen.
  apply int16_bound in H as [Hb Hneg]. split; [|exact Hneg].
  pose proof (pow16_mono (String.length (substring 74 64 input)) 64 Hlen) as H1.
  pose proof (pow16_mono (Nat.pred (String.length (substring 74 64 input))) 63
                ltac:(lia)) as H2.
  change (2 ^ 256) with (16 ^ Z.of_nat 64).
  change (2 ^ 252) with (16 ^ Z.of_nat 63). lia.
Qed.

Lemma decoded_amount_bounds_witness :
  - 2 ^ 252 < - 250000 < 2 ^ 256 /\
  (- 250000 < 0 ->
   exists rest,
     skip_blanks
       (substring 74 64
          ("0xa9059cbb0000000000000000000000003ef50d6213f36eb88b994fa6c78277b328216d52"
           ++ "-3d090")%string)
     = String "-" rest).
Proof.
  apply (decoded_amount_bounds
           ("0xa9059cbb0000000000000000000000003ef50d6213f36eb88b994fa6c78277b328216d52"
            ++ "-3d090")%string (- 250000)).
  reflexivity.
Defined.

(** X10.  On a payload of at most 74 characters (the selector and at most
    the recipient slot) the slice of line 82 is empty and the decode raises
    ValueError. *)
Theorem decode_of_short_payload_raises (input : string) :
  (String.length input <= 74)%nat ->
  int16 (substring 74 64 input) = Raise ValueError.
Proof.
  intros H. now rewrite substring_beyond.
Qed.

Lemma decode_of_short_payload_raises_witness :
  int16 (substring 74 64
           "0xa9059cbb0000000000000000000000003ef50d6213f36eb88b994fa6c78277b328216d52")
  = Raise ValueError.
Proof.
  apply (decode_of_short_payload_raises
           "0xa9059cbb0000000000000000000000003ef50d6213f36eb88b994fa6c78277b328216d52").
  cbn. lia.
Defined.

(** X11.  The decode reads characters 74 to 137 and nothing else: with 74
    characters in front (selector and recipient slot) and anything behind,
    the amount is the value of the 64 characters of the second slot.  The
    recipient slot has no influence on it. *)
Theorem decode_reads_second_slot_only (head slot rest : string) :
  String.length head = 74%nat ->
  String.length slot = 64%nat ->
  int16 (substring 74 64 (head ++ slot ++ rest)%string) = int16 slot.
Proof.
  intros Hh Hs. rewrite <- Hh, substring_skip, <- Hs, substring_take.
  reflexivity.
Qed.

Lemma decode_reads_second_slot_only_witness :
  int16 (substring 74 64
           ("0xa9059cbb000000000000000000000000dd3ba483352ab5e74e4c52681fd53db4376e5c13"
            ++ "000000000000000000000000000000000000000000000000000000000003d090"
            ++ "ffff")%string)
  = int16 "000000000000000000000000000000000000000000000000000000000003d090".
Proof.
  apply (decode_reads_second_slot_only
           "0xa9059cbb000000000000000000000000dd3ba483352ab5e74e4c52681fd53db4376e5c13"
           "000000000000000000000000000000000000000000000000000000000003d090"
           "ffff").
  - reflexivity.
  - reflexivity.
Defined.

(** * Further properties of the scan loop *)

(** X12.  The window of a cycle (line 70): a block number belongs to it
    exactly when it is non-negative and lies between [latest - BLOCK_RANGE]
    and [latest]; the window holds at most BLOCK_RANGE + 1 numbers and is
    empty below height 0. *)
Theorem scan_window_bounds (latest : Z) :
  let window := range (Z.max 0 (latest - BLOCK_RANGE)) (latest + 1) in
  (forall b, In b window <-> 0 <= b /\ latest - BLOCK_RANGE <= b <= latest) /\
  (List.length window <= Z.to_nat (BLOCK_RANGE + 1))%nat /\
  (latest < 0 -> window = []).
Proof.
  intros window. unfold window, BLOCK_RANGE. repeat split.
  - apply in_range in H. lia.
  - apply in_range in H. lia.
  - apply in_range in H. lia.
  - intros (H0 & H1 & H2). apply in_range. lia.
  - rewrite range_length. lia.
  - intros Hneg. unfold range.
    replace (Z.to_nat (latest + 1 - Z.max 0 (latest - 100))) with 0%nat by lia.
    reflexivity.
Qed.

Section ScanMore.

Variable w3 : Web3.

Lemma scan_block_no_raise (cursor b : Z) (h : history) :
  (forall h' b', exists blk, get_block w3 h' b' = Ok blk) ->
  fst (scan_block w3 cursor b h) = Ok tt.
Proof.
  intros Hget. unfold scan_block. destruct (b <=? cursor); [reflexivity|].
  unfold bind, rpc. destruct (Hget h b) as [blk ->].
  pose proof (for_each_process_tx_no_raise w3 (transactions blk)
                (h ++ [Rpc_get_block b])) as Hok.
  destruct (for_each (process_tx w3) (transactions blk) (h ++ [Rpc_get_block b])).
  exact Hok.
Qed.

(** Blocks fetched in a walk are above the cursor and belong to the
    range. *)
Lemma scan_fetches_in_range (cursor : Z) (rng : list Z) (h : history) :
  Forall (fun b => cursor < b /\ In b rng)
         (fetched (snd (for_each (scan_block w3 cursor) rng h))).
Proof.
  revert h. induction rng as [|b rng IH]; intros h; [constructor|].
  cbn [for_each]. unfold bind.
  pose proof (scan_block_fetched w3 cursor b h) as Hf.
  assert (Hhead : Forall (fun x => cursor < x /\ In x (b :: rng))
                         (if b <=? cursor then [] else [b])).
  { destruct (Z.leb_spec b cursor); constructor; [|constructor].
    split; [lia | now left]. }
  destruct (scan_block w3 cursor b h) as [[u|e] es]; cbn [snd] in *.
  - specialize (IH (h ++ es)).
    destruct (for_each (scan_block w3 cursor) rng (h ++ es)) as [r es'].
    cbn [snd] in *. rewrite fetched_app, Hf. apply Forall_app. split; [exact Hhead|].
    eapply Forall_impl; [|exact IH]. cbn. intros x [H1 H2]. split; [exact H1 | now right].
  - rewrite Hf. exact Hhead.
Qed.

End ScanMore.

(** X13.  Lines 70-73 under any value of [last_logged_block], on a node
    whose [get_block] never raises: the walk raises nothing and fetches, in
    ascending order of the range, exactly the block numbers of the range
    that exceed [last_logged_block]. *)
Theorem walk_fetches_blocks_above_cursor (w3 : Web3) (cursor : Z)
    (rng : list Z) (h : history) :
  (forall h' b', exists blk, get_block w3 h' b' = Ok blk) ->
  fst (for_each (scan_block w3 cursor) rng h) = Ok tt /\
  fetched (snd (for_each (scan_block w3 cursor) rng h))
  = filter (fun b => cursor <? b) rng.
Proof.
  intros Hget. revert h. induction rng as [|b rng IH]; intros h.
  - split; reflexivity.
  - cbn [for_each filter]. unfold bind.
    pose proof (scan_block_no_raise w3 cursor b h Hget) as Hok.
    pose proof (scan_block_fetched w3 cursor b h) as Hf.
    destruct (scan_block w3 cursor b h) as [r es]. cbn [fst snd] in *. subst r.
    destruct (IH (h ++ es)) as [IH1 IH2].
    destruct (for_each (scan_block w3 cursor) rng (h ++ es)) as [r' es'].
    cbn [fst snd] in *. split; [exact IH1|].
    rewrite fetched_app, Hf, IH2.
    destruct (Z.leb_spec b cursor), (Z.ltb_spec cursor b); try lia; reflexivity.
Qed.

Lemma walk_fetches_blocks_above_cursor_witness :
  fst (for_each (scan_block (deposit_node 5) 3) (range 0 6) []) = Ok tt /\
  fetched (snd (for_each (scan_block (deposit_node 5) 3) (range 0 6) []))
  = filter (fun b => 3 <? b) (range 0 6).
Proof.
  apply (walk_fetches_blocks_above_cursor (deposit_node 5) 3 (range 0 6) []).
  intros h' b'. exists (mkBlock [deposit_tx]). reflexivity.
Defined.

(** X14.  Lines 70-90 under any value of [last_logged_block] and on any
    node: no exception leaves the cycle, the last thing the cycle does is
    to sleep MONITOR_INTERVAL seconds, and every block it fetched lies in
    the window of the cycle, above [last_logged_block]. *)
Theorem cycle_body_never_raises (w3 : Web3) (cursor latest : Z) (h : history) :
  exists es,
    scan_and_sleep w3 cursor latest h = (Ok tt, es ++ [Sleep MONITOR_INTERVAL]) /\
    Forall (fun b => cursor < b /\ 0 <= b /\ latest - BLOCK_RANGE <= b <= latest)
           (fetched es).
Proof.
  unfold scan_and_sleep, try_except, bind.
  pose proof (scan_fetches_in_range w3 cursor
                (range (Z.max 0 (latest - BLOCK_RANGE)) (latest + 1)) h) as Hf.
  assert (Hf' : Forall (fun b => cursor < b /\ 0 <= b /\
                                 latest - BLOCK_RANGE <= b <= latest)
                  (fetched (snd (for_each (scan_block w3 cursor)
                     (range (Z.max 0 (latest - BLOCK_RANGE)) (latest + 1)) h)))).
  { eapply Forall_impl; [|exact Hf]. cbn. intros b [H1 H2].
    apply in_range in H2. lia. }
  clear Hf.
  destruct (for_each (scan_block w3 cursor)
              (range (Z.max 0 (latest - BLOCK_RANGE)) (latest + 1)) h)
    as [[u|e] es]; cbn [snd] in Hf'.
  - destruct u. exists es. split; [reflexivity | exact Hf'].
  - exists (es ++ [Log ERROR (Monitoring_error e)]). split.
    + unfold emit. cbn. now rewrite <- app_assoc.
    + rewrite fetched_app. cbn. now rewrite app_nil_r.
Qed.

(** X15.  One cycle in full.  If the height request raises [e], the cursor
    is unchanged and the cycle is: the request, the "Monitoring error"
    line for [e], a sleep of MONITOR_INTERVAL.  If it answers [H], the
    cursor becomes [max(cursor, H)] and the cycle is: the request, the
    "Scanning new blocks up to H" line exactly when [H] exceeds the
    cursor, a sleep of MONITOR_INTERVAL. *)
Theorem monitor_cycle_outcome (w3 : Web3) (last : Z) (h : history) :
  (forall e, get_block_number w3 h = Raise e ->
     monitor_cycle w3 last h
     = (last, [Rpc_get_block_number; Log ERROR (Monitoring_error e);
               Sleep MONITOR_INTERVAL])) /\
  (forall H, get_block_number w3 h = Ok H ->
     monitor_cycle w3 last h
     = (Z.max last H,
        Rpc_get_block_number
        :: (if H >? last then [Log INFO (Scanning_new_blocks H)] else [])
        ++ [Sleep MONITOR_INTERVAL])).
Proof.
  split; intros x Hx; rewrite monitor_cycle_unfold, Hx; [reflexivity|].
  unfold update_last_logged. now destruct (x >? last).
Qed.

Section RunMore.

Variable w3 : Web3.

Lemma logged_heights_app (a b : list event) :
  logged_heights (a ++ b) = logged_heights a ++ logged_heights b.
Proof.
  induction a as [|e a IH]; [reflexivity|].
  destruct e as [| | | | | | |l m| |]; cbn; try exact IH.
  destruct l, m; cbn; now rewrite ?IH.
Qed.

Lemma last_cons_default (x d : Z) (l : list Z) : List.last (x :: l) d = List.last l x.
Proof.
  revert x d. induction l as [|y l IH]; intros x d; [reflexivity|].
  change (List.last (x :: y :: l) d) with (List.last (y :: l) d).
  rewrite IH. symmetry. apply IH.
Qed.

(** What one cycle contributes to the counts and to the logged heights. *)
Lemma monitor_cycle_summary (last : Z) (h : history) :
  let (last', es) := monitor_cycle w3 last h in
  last <= last' /\
  logged_heights es = (if last' >? last then [last'] else []) /\
  count is_height_request es = 1%nat /\
  filter is_sleep es = [Sleep MONITOR_INTERVAL].
Proof.
  rewrite monitor_cycle_unfold.
  destruct (get_block_number w3 h) as [latest|e].
  - unfold update_last_logged.
    destruct (Z.gtb_spec latest last) as [Hgt|Hle]; cbn [snd app].
    + replace (Z.max last latest) with latest by lia.
      replace (latest >? last) with true by (symmetry; apply Z.gtb_lt; lia).
      repeat split. lia.
    + replace (Z.max last latest) with last by lia.
      rewrite Z.gtb_ltb, Z.ltb_irrefl. repeat split. lia.
  - rewrite Z.gtb_ltb, Z.ltb_irrefl. repeat split. lia.
Qed.

End RunMore.

(** X16.  In any run of [n] cycles the loop asks for the height exactly
    [n] times and sleeps exactly [n] times, MONITOR_INTERVAL seconds each
    time, whether the height requests raise or not. *)
Theorem run_polls_and_sleeps_once_per_cycle (w3 : Web3) (n : nat) (last : Z)
    (h : history) :
  count is_height_request (snd (cycles w3 n last h)) = n /\
  filter is_sleep (snd (cycles w3 n last h)) = repeat (Sleep MONITOR_INTERVAL) n.
Proof.
  revert last h. induction n as [|n IH]; intros last h; [split; reflexivity|].
  rewrite cycles_S.
  pose proof (monitor_cycle_summary w3 last h) as Hs.
  destruct (monitor_cycle w3 last h) as [l1 es1].
  destruct Hs as (_ & _ & Hc & Hsl).
  destruct (IH l1 (h ++ es1)) as [IH1 IH2].
  destruct (cycles w3 n l1 (h ++ es1)) as [l2 es2]. cbn [snd] in *.
  rewrite count_app, filter_app, Hc, Hsl, IH1, IH2. split; reflexivity.
Qed.

(** X17.  The heights announced by "Scanning new blocks up to ..." in a
    run are strictly increasing, so no height is announced twice; each is
    above the cursor the run started from and at most the final cursor; and
    the final cursor is the last height announced, or the starting value
    when none was. *)
Theorem logged_heights_strictly_increase (w3 : Web3) (n : nat) (last : Z)
    (h : history) :
  let (last', es) := cycles w3 n last h in
  StronglySorted Z.lt (logged_heights es) /\
  Forall (fun b => last < b <= last') (logged_heights es) /\
  List.last (logged_heights es) last = last'.
Proof.
  revert last h. induction n as [|n IH]; intros last h.
  - cbn. repeat split; constructor.
  - rewrite cycles_S.
    pose proof (monitor_cycle_summary w3 last h) as Hs.
    destruct (monitor_cycle w3 last h) as [l1 es1].
    destruct Hs as (Hle & Hlog & _ & _).
    specialize (IH l1 (h ++ es1)).
    destruct (cycles w3 n l1 (h ++ es1)) as [l2 es2].
    destruct IH as (IHs & IHf & IHl).
    rewrite logged_heights_app, Hlog.
    assert (Hl12 : l1 <= l2).
    { destruct (logged_heights es2) as [|b bs]; [cbn in IHl; lia|].
      inversion IHf; subst. lia. }
    destruct (Z.gtb_spec l1 last) as [Hgt|Hnot]; cbn [app].
    + repeat split.
      * constructor; [exact IHs|].
        eapply Forall_impl; [|exact IHf]. cbn. intros b Hb. lia.
      * constructor; [lia|].
        eapply Forall_impl; [|exact IHf]. cbn. intros b Hb. lia.
      * rewrite last_cons_default. exact IHl.
    + assert (l1 = last) by lia. subst l1. now repeat split.
Qed.

(** X18.  While the height request raises, the loop keeps polling and
    never moves the cursor: [n] cycles leave [last_logged_block] as it was,
    announce no height, and log "Monitoring error" [n] times. *)
Theorem run_with_failing_height_requests (w3 : Web3) (n : nat) (last : Z)
    (h : history) :
  (forall h', exists e, get_block_number w3 h' = Raise e) ->
  fst (cycles w3 n last h) = last /\
  logged_heights (snd (cycles w3 n last h)) = [] /\
  count is_log (snd (cycles w3 n last h)) = n /\
  Forall (fun ev => exists e, ev = Log ERROR (Monitoring_error e))
         (filter is_log (snd (cycles w3 n last h))).
Proof.
  intros Hraise. revert h. induction n as [|n IH]; intros h.
  - repeat split; constructor.
  - rewrite cycles_S, monitor_cycle_unfold.
    destruct (Hraise h) as [e ->].
    destruct (IH (h ++ [Rpc_get_block_number; Log ERROR (Monitoring_error e);
                        Sleep MONITOR_INTERVAL])) as (I1 & I2 & I3 & I4).
    destruct (cycles w3 n last
                (h ++ [Rpc_get_block_number; Log ERROR (Monitoring_error e);
                       Sleep MONITOR_INTERVAL])) as [l2 es2].
    cbn [fst snd] in *. rewrite logged_heights_app, count_app, filter_app, I2, I3.
    repeat split; auto.
    cbn. constructor; [now exists e | exact I4].
Qed.

Lemma run_with_failing_height_requests_witness :
  fst (cycles failing_node 3 0 []) = 0 /\
  logged_heights (snd (cycles failing_node 3 0 [])) = [] /\
  count is_log (snd (cycles failing_node 3 0 [])) = 3%nat /\
  Forall (fun ev => exists e, ev = Log ERROR (Monitoring_error e))
         (filter is_log (snd (cycles failing_node 3 0 []))).
Proof.
  apply (run_with_failing_height_requests failing_node 3 0 []).
  intros h'. exists (Web3Error "timeout"). reflexivity.
Defined.
